(** * Passport form view controller: scopes, ready strings and rows

    A shallow embedding of
    [Telegram/SourceFiles/passport/passport_form_view_controller.cpp]
    and the properties of its four parts: the category maps
    ([ScopeTypeForValueType], [FieldsTypeForScopeType]), the scope builder
    ([ComputeScopes]), the summary formatter ([ComputeScopeRowReadyString])
    and the row presenter ([ComputeScopeRow]).

    Conventions of the embedding:
    - [Assert] and [Unexpected] abort the process; a function that may
      reach one returns [option], and [None] is the abort.
    - A [not_null<const Value*>] is only ever read through, so a scope
      holds the [Value] it points to.
    - [QString] is [string], [QStringList::join] is [String.concat];
      the null [QString()] is the empty string.
    - [std::map<QString, QString>] is a [gmap string string];
      [std::map<Scope::Type, Scope>], whose iteration order matters, is an
      association list kept sorted by the enumeration order of its keys. *)

From stdpp Require Import base option list sorting strings gmap fin_maps.

Local Open Scope string_scope.
Set Warnings "-clear-no-such-hyp".

(** ** Data model *)

(** Modelled from the spec: the type of an attached file ([File], declared
    in passport_form_controller.h) is only tested for presence here. *)
Record File := { fileId : N }.

Module Value.

(** Modelled from the spec: the enumeration [Value::Type] is declared in
    passport_form_controller.h; its ten enumerators are the ones this
    file names in [ScopeTypesMap]. *)
Inductive Type_ :=
| PersonalDetails | Passport | DriverLicense | IdentityCard
| Address | UtilityBill | BankStatement | RentalAgreement
| Phone | Email.

#[global] Instance Type_eq_dec : EqDecision Type_.
Proof. solve_decision. Defined.

Definition code (t : Type_) : positive :=
  match t with
  | PersonalDetails => 1 | Passport => 2 | DriverLicense => 3
  | IdentityCard => 4 | Address => 5 | UtilityBill => 6
  | BankStatement => 7 | RentalAgreement => 8 | Phone => 9
  | Email => 10
  end%positive.

Definition of_code (p : positive) : option Type_ :=
  match p with
  | 1 => Some PersonalDetails | 2 => Some Passport
  | 3 => Some DriverLicense | 4 => Some IdentityCard
  | 5 => Some Address | 6 => Some UtilityBill
  | 7 => Some BankStatement | 8 => Some RentalAgreement
  | 9 => Some Phone | 10 => Some Email
  | _ => None
  end%positive.

#[global] Instance Type_countable : Countable Type_ :=
  inj_countable code of_code
    (λ t, match t with
          | PersonalDetails | Passport | DriverLicense | IdentityCard
          | Address | UtilityBill | BankStatement | RentalAgreement
          | Phone | Email => eq_refl
          end).

(** Modelled from the spec: [Value] is declared in
    passport_form_controller.h; these are the members this file reads,
    [type], [data.parsed.fields], [scans] and [selfie]. *)
Record t := mk {
  type : Type_;
  data_parsed_fields : gmap string string;
  scans : list File;
  selfie : option File;
}.

End Value.

Module Scope.

(** Modelled from the spec: the enumeration [Scope::Type] is declared in
    passport_form_view_controller.h, in the order Identity, Address,
    Phone, Email. *)
Inductive Type_ := Identity | Address | Phone | Email.

#[global] Instance Type_eq_dec : EqDecision Type_.
Proof. solve_decision. Defined.

(** The underlying value of an enumerator, by which [std::map] orders
    its keys. *)
Definition rank (t : Type_) : nat :=
  match t with Identity => 0 | Address => 1 | Phone => 2 | Email => 3 end.

(** Modelled from the spec: [Scope] is declared in
    passport_form_view_controller.h; these are its members, the selfie
    flag being false until it is assigned. *)
Record t := mk {
  type : Type_;
  fields : Value.t;
  documents : list Value.t;
  selfieRequired : bool;
}.

(** [Scope::Scope(Type type, not_null<const Value*> fields)]. *)
Definition Scope (type : Type_) (fields : Value.t) : t :=
  mk type fields [] false.

(** [scope.selfieRequired = b]. *)
Definition set_selfieRequired (b : bool) (s : t) : t :=
  mk (type s) (fields s) (documents s) b.

(** [scope.documents.push_back(v)]. *)
Definition documents_push_back (v : Value.t) (s : t) : t :=
  mk (type s) (fields s) (documents s ++ [v])%list (selfieRequired s).

End Scope.

(** ** Aborts *)

Definition Unexpected {A : Type} (message : string) : option A := None.

Definition Assert (condition : bool) : option unit :=
  if condition then Some tt else None.

(** ** Category maps *)

Definition ScopeTypesMap : list (Value.Type_ * Scope.Type_) :=
  [ (Value.PersonalDetails, Scope.Identity);
    (Value.Passport, Scope.Identity);
    (Value.DriverLicense, Scope.Identity);
    (Value.IdentityCard, Scope.Identity);
    (Value.Address, Scope.Address);
    (Value.UtilityBill, Scope.Address);
    (Value.BankStatement, Scope.Address);
    (Value.RentalAgreement, Scope.Address);
    (Value.Phone, Scope.Phone);
    (Value.Email, Scope.Email) ].

(** [map.find(key)] on a [std::map] given by its initializer list. *)
Fixpoint map_find {K V : Type} `{EqDecision K}
    (key : K) (map : list (K * V)) : option V :=
  match map with
  | [] => None
  | (k, v) :: rest => if decide (k = key) then Some v else map_find key rest
  end.

Definition ScopeTypeForValueType (type : Value.Type_) : option Scope.Type_ :=
  let i := map_find type ScopeTypesMap in
  _ ← Assert (bool_decide (is_Some i));
  i.

Definition ScopeFieldsMap : list (Scope.Type_ * Value.Type_) :=
  [ (Scope.Identity, Value.PersonalDetails);
    (Scope.Address, Value.Address);
    (Scope.Phone, Value.Phone);
    (Scope.Email, Value.Email) ].

Definition FieldsTypeForScopeType (type : Scope.Type_) : option Value.Type_ :=
  let i := map_find type ScopeFieldsMap in
  _ ← Assert (bool_decide (is_Some i));
  i.

(** ** Scope builder *)

(** [std::map<Scope::Type, V>]: the entries in increasing order of their
    keys' underlying values. *)
Module ScopeMap.
Section ops.
Context {V : Type}.

Fixpoint insert (k : Scope.Type_) (v : V)
    (m : list (Scope.Type_ * V)) : list (Scope.Type_ * V) :=
  match m with
  | [] => [(k, v)]
  | (k', v') :: m' =>
      if decide (Scope.rank k < Scope.rank k')
      then (k, v) :: m
      else (k', v') :: insert k v m'
  end.

(** [emplace] leaves the map as it is when the key is taken; it returns
    the map and whether the insertion took place. The iterator it also
    returns is the position of [k], read below with [map_find] and
    written through with [modify]. *)
Definition emplace (k : Scope.Type_) (v : V)
    (m : list (Scope.Type_ * V)) : list (Scope.Type_ * V) * bool :=
  match map_find k m with
  | Some _ => (m, false)
  | None => (insert k v m, true)
  end.

Fixpoint modify (k : Scope.Type_) (f : V → V)
    (m : list (Scope.Type_ * V)) : list (Scope.Type_ * V) :=
  match m with
  | [] => []
  | (k', v) :: m' =>
      if decide (k' = k) then (k', f v) :: m'
      else (k', v) :: modify k f m'
  end.
End ops.
End ScopeMap.

(** Modelled from the spec: [Form] is declared in
    passport_form_controller.h; these are the members this file reads. *)
Record Form := mkForm {
  values : gmap Value.Type_ Value.t;
  request : list Value.Type_;
  identitySelfieRequired : bool;
}.

(** The lambda [findValue] of [ComputeScopes]. *)
Definition findValue (form : Form) (type : Value.Type_) : option Value.t :=
  let i := values form !! type in
  _ ← Assert (bool_decide (is_Some i));
  i.

(** One iteration of [for (const auto type : form.request)]: the scopes
    after it and the value types it passed to [LOG]. *)
Definition ComputeScopes_body (form : Form)
    (scopes : list (Scope.Type_ * Scope.t)) (type : Value.Type_)
    : option (list (Scope.Type_ * Scope.t) * list Value.Type_) :=
  scopeType ← ScopeTypeForValueType type;
  fieldsType ← FieldsTypeForScopeType scopeType;
  primary ← findValue form fieldsType;
  let '(scopes, ok) :=
    ScopeMap.emplace scopeType (Scope.Scope scopeType primary) scopes in
  let scopes :=
    ScopeMap.modify scopeType
      (Scope.set_selfieRequired
         (bool_decide (scopeType = Scope.Identity)
          && identitySelfieRequired form))
      scopes in
  let documents := from_option Scope.documents [] (map_find scopeType scopes) in
  let alreadyIt := list_find (λ value, Value.type value = type) documents in
  if alreadyIt is Some _ then
    Some (scopes, [type])
  else if bool_decide (type ≠ fieldsType) then
    document ← findValue form type;
    Some (ScopeMap.modify scopeType
            (Scope.documents_push_back document) scopes, [])
  else Some (scopes, []).

Fixpoint ComputeScopes_loop (form : Form)
    (scopes : list (Scope.Type_ * Scope.t)) (request : list Value.Type_)
    : option (list (Scope.Type_ * Scope.t) * list Value.Type_) :=
  match request with
  | [] => Some (scopes, [])
  | type :: request =>
      '(scopes, logged) ← ComputeScopes_body form scopes type;
      '(scopes, logged') ← ComputeScopes_loop form scopes request;
      Some (scopes, (logged ++ logged')%list)
  end.

(** [ComputeScopes] with the value types it logged as requested twice. *)
Definition ComputeScopes_logged (form : Form)
    : option (list Scope.t * list Value.Type_) :=
  '(scopes, logged) ← ComputeScopes_loop form [] (request form);
  Some (scopes.*2, logged).

Definition ComputeScopes (form : Form) : option (list Scope.t) :=
  fst <$> ComputeScopes_logged form.

(** ** Consumed interfaces *)

(** Modelled from the spec: the language keys of lang/lang_keys.h that this
    file passes to [lang]. *)
Inductive LangKey :=
| lng_passport_identity_passport | lng_passport_identity_license
| lng_passport_identity_card | lng_passport_address_statement
| lng_passport_address_bill | lng_passport_address_agreement
| lng_passport_personal_details | lng_passport_personal_details_enter
| lng_passport_identity_passport_upload | lng_passport_identity_card_upload
| lng_passport_identity_license_upload | lng_passport_identity_title
| lng_passport_identity_description | lng_passport_address
| lng_passport_address_enter | lng_passport_address_statement_upload
| lng_passport_address_bill_upload | lng_passport_address_agreement_upload
| lng_passport_address_title | lng_passport_address_description
| lng_passport_phone_title | lng_passport_phone_description
| lng_passport_email_title | lng_passport_email_description.

Module EditDocumentScheme.

Inductive ValueClass := Fields | Scans.

(** Modelled from the spec: [EditDocumentScheme::Row] is declared in
    passport_panel_edit_document.h; these are the members read here. A
    null [validate] or [format] is [None]. *)
Record Row := mkRow {
  valueClass : ValueClass;
  key : string;
  validate : option (string → bool);
  format : option (string → string);
}.

Record t := mk { rows : list Row }.

End EditDocumentScheme.

Module EditContactScheme.

(** Modelled from the spec: [EditContactScheme] is declared in
    passport_panel_edit_contact.h; only [format] is read here. *)
Record t := mk { format : option (string → string) }.

End EditContactScheme.

(** Modelled from the spec: [ScopeRow] is declared in
    passport_form_view_controller.h; it is brace-initialized with a title,
    a subtitle and the ready string, in this order. *)
Record ScopeRow := mkScopeRow {
  title : string;
  subtitle : string;
  readySummary : string;
}.

(** [container.empty()]. *)
Definition empty_ {A : Type} (l : list A) : bool :=
  match l with [] => true | _ => false end.

Section Presentation.

(** The localized-string provider and the scheme tables of
    passport_panel_controller.cpp. *)
Variable lang : LangKey → string.
Variable GetDocumentScheme : Scope.Type_ → EditDocumentScheme.t.
Variable GetContactScheme : Scope.Type_ → EditContactScheme.t.

(** ** Summary formatter *)

(** The lambda initializing [document]: the first document with scans. *)
Definition RepresentativeDocument (scope : Scope.t) : option Value.t :=
  List.find (λ document, negb (empty_ (Value.scans document)))
    (Scope.documents scope).

(** The [switch (document->type)] choosing the label key. *)
Definition DocumentLabel (type : Value.Type_) : option LangKey :=
  match type with
  | Value.Passport => Some lng_passport_identity_passport
  | Value.DriverLicense => Some lng_passport_identity_license
  | Value.IdentityCard => Some lng_passport_identity_card
  | Value.BankStatement => Some lng_passport_address_statement
  | Value.UtilityBill => Some lng_passport_address_bill
  | Value.RentalAgreement => Some lng_passport_address_agreement
  | _ => Unexpected "Files type in ComputeScopeRowReadyString."
  end.

(** The condition of the early [return QString()] before the rows. *)
Definition DocumentNotReady (scope : Scope.t)
    (document : option Value.t) : bool :=
  match document with
  | Some document =>
      empty_ (Value.scans document)
      || (Scope.selfieRequired scope
          && negb (bool_decide (is_Some (Value.selfie document))))
  | None => false
  end.

(** [row.validate && !row.validate(value)]. *)
Definition rejected (row : EditDocumentScheme.Row) (value : string) : bool :=
  match EditDocumentScheme.validate row with
  | Some validate => negb (validate value)
  | None => false
  end.

(** The body of [for (const auto &row : scheme.rows)]: the string it
    pushes to [list], or [None] where it returns [QString()]. *)
Definition RowString (fields : gmap string string)
    (document : option Value.t) (row : EditDocumentScheme.Row)
    : option string :=
  let format := EditDocumentScheme.format row in
  match EditDocumentScheme.valueClass row with
  | EditDocumentScheme.Fields =>
      match fields !! EditDocumentScheme.key row with
      | None => None
      | Some value =>
          if rejected row value then None
          else Some (match format with
                     | Some format => format value
                     | None => value
                     end)
      end
  | EditDocumentScheme.Scans =>
      match document with
      | None => None
      | Some document =>
          match Value.data_parsed_fields document
                  !! EditDocumentScheme.key row with
          | None => None
          | Some value => if rejected row value then None else Some value
          end
      end
  end.

(** The loop over the rows, from the [list] built so far: the final
    [list], or [None] where an iteration returns [QString()]. *)
Fixpoint RowsLoop (fields : gmap string string) (document : option Value.t)
    (rows : list EditDocumentScheme.Row) (list : Datatypes.list string)
    : option (Datatypes.list string) :=
  match rows with
  | [] => Some list
  | row :: rows =>
      match RowString fields document row with
      | None => None
      | Some pushed => RowsLoop fields document rows (list ++ [pushed])%list
      end
  end.

Definition ComputeScopeRowReadyString (scope : Scope.t) : option string :=
  match Scope.type scope with
  | Scope.Identity | Scope.Address =>
      let fields := Value.data_parsed_fields (Scope.fields scope) in
      let document := RepresentativeDocument scope in
      list ← match document with
             | Some document =>
                 if bool_decide (1 < length (Scope.documents scope)) then
                   label ← DocumentLabel (Value.type document);
                   Some [lang label]
                 else Some []
             | None => Some []
             end;
      if DocumentNotReady scope document then Some ""
      else
        let scheme := GetDocumentScheme (Scope.type scope) in
        match RowsLoop fields document
                (EditDocumentScheme.rows scheme) list with
        | None => Some ""
        | Some list => Some (String.concat ", " list)
        end
  | Scope.Phone | Scope.Email =>
      let format :=
        EditContactScheme.format (GetContactScheme (Scope.type scope)) in
      let fields := Value.data_parsed_fields (Scope.fields scope) in
      match fields !! "value" with
      | Some value =>
          Some (match format with
                | Some format => format value
                | None => value
                end)
      | None => Some ""
      end
  end.

(** ** Row presenter *)

(** [return { lang(title), lang(subtitle),
    ComputeScopeRowReadyString(scope) }]. *)
Definition Row (scope : Scope.t) (title subtitle : LangKey)
    : option ScopeRow :=
  ready ← ComputeScopeRowReadyString scope;
  Some (mkScopeRow (lang title) (lang subtitle) ready).

Definition ComputeScopeRow (scope : Scope.t) : option ScopeRow :=
  match Scope.type scope with
  | Scope.Identity =>
      match Scope.documents scope with
      | [] =>
          Row scope lng_passport_personal_details
            lng_passport_personal_details_enter
      | [front] =>
          match Value.type front with
          | Value.Passport =>
              Row scope lng_passport_identity_passport
                lng_passport_identity_passport_upload
          | Value.IdentityCard =>
              Row scope lng_passport_identity_card
                lng_passport_identity_card_upload
          | Value.DriverLicense =>
              Row scope lng_passport_identity_license
                lng_passport_identity_license_upload
          | _ => Unexpected "Identity type in ComputeScopeRow."
          end
      | _ =>
          Row scope lng_passport_identity_title
            lng_passport_identity_description
      end
  | Scope.Address =>
      match Scope.documents scope with
      | [] => Row scope lng_passport_address lng_passport_address_enter
      | [front] =>
          match Value.type front with
          | Value.BankStatement =>
              Row scope lng_passport_address_statement
                lng_passport_address_statement_upload
          | Value.UtilityBill =>
              Row scope lng_passport_address_bill
                lng_passport_address_bill_upload
          | Value.RentalAgreement =>
              Row scope lng_passport_address_agreement
                lng_passport_address_agreement_upload
          | _ => Unexpected "Address type in ComputeScopeRow."
          end
      | _ =>
          Row scope lng_passport_address_title
            lng_passport_address_description
      end
  | Scope.Phone =>
      Row scope lng_passport_phone_title lng_passport_phone_description
  | Scope.Email =>
      Row scope lng_passport_email_title lng_passport_email_description
  end.

End Presentation.

(** ** Well-formedness of forms and scopes *)

(** The form keeps each value under its own type. *)
Definition FormValuesTyped (form : Form) : Prop :=
  ∀ type value, values form !! type = Some value → Value.type value = type.

(** The resolver answers for every requested type and for the type holding
    the fields of its scope. *)
Definition FormResolves (form : Form) : Prop :=
  ∀ type, type ∈ request form →
    is_Some (values form !! type) ∧
    ∀ scopeType fieldsType,
      ScopeTypeForValueType type = Some scopeType →
      FieldsTypeForScopeType scopeType = Some fieldsType →
      is_Some (values form !! fieldsType).

(** A value type is a document type of a scope type: it maps to that scope
    type and is not the type of the scope's fields. *)
Definition DocumentTypeOf (scopeType : Scope.Type_) (type : Value.Type_)
    : Prop :=
  ScopeTypeForValueType type = Some scopeType
  ∧ FieldsTypeForScopeType scopeType ≠ Some type.

(** The documents of a scope are values of its document types. *)
Definition ScopeDocumentsBelong (scope : Scope.t) : Prop :=
  Forall (λ document,
            DocumentTypeOf (Scope.type scope) (Value.type document))
    (Scope.documents scope).

(** Some requested value type maps to the scope type. *)
Definition ScopeRequested (request : list Value.Type_)
    (scopeType : Scope.Type_) : Prop :=
  Exists (λ type, ScopeTypeForValueType type = Some scopeType) request.

#[global] Instance ScopeRequested_dec request scopeType :
  Decision (ScopeRequested request scopeType).
Proof. unfold ScopeRequested. apply _. Defined.

(** The order of the enumerators of [Scope::Type]. *)
Definition before (a b : Scope.Type_) : Prop := Scope.rank a < Scope.rank b.

Definition all_scope_types : list Scope.Type_ :=
  [Scope.Identity; Scope.Address; Scope.Phone; Scope.Email].

#[global] Instance DocumentTypeOf_dec scopeType type :
  Decision (DocumentTypeOf scopeType type).
Proof. unfold DocumentTypeOf. apply _. Defined.

(** The elements of a list that are not in [seen], each kept where it
    occurs first. *)
Fixpoint first_occurrences_from {A : Type} `{EqDecision A}
    (seen l : list A) : list A :=
  match l with
  | [] => []
  | x :: l =>
      if decide (x ∈ seen) then first_occurrences_from seen l
      else x :: first_occurrences_from (x :: seen) l
  end.

Definition first_occurrences {A : Type} `{EqDecision A} (l : list A)
    : list A :=
  first_occurrences_from [] l.

(** What the builder maintains of the scope kept under [scopeType]: its
    type is its key, its fields are the form's value of the fields type,
    and the selfie flag is the form's for Identity. *)
Definition ScopeBuilt (form : Form) (scopeType : Scope.Type_)
    (scope : Scope.t) : Prop :=
  Scope.type scope = scopeType
  ∧ (∀ fieldsType,
       FieldsTypeForScopeType scopeType = Some fieldsType →
       values form !! fieldsType = Some (Scope.fields scope))
  ∧ Scope.selfieRequired scope
    = (bool_decide (scopeType = Scope.Identity)
       && identitySelfieRequired form).

Definition ScopesBuilt (form : Form) (scopes : list (Scope.Type_ * Scope.t))
    : Prop :=
  StronglySorted before scopes.*1
  ∧ ∀ scopeType scope,
      map_find scopeType scopes = Some scope →
      ScopeBuilt form scopeType scope.

(** What the builder maintains of the documents when the form keeps each
    value under its own type: the documents of a scope are the form's
    values of distinct document types of the scope type. *)
Definition DocumentsBuilt (form : Form)
    (scopes : list (Scope.Type_ * Scope.t)) : Prop :=
  ∀ scopeType scope,
    map_find scopeType scopes = Some scope →
    Forall (λ document,
              values form !! Value.type document = Some document
              ∧ DocumentTypeOf scopeType (Value.type document))
      (Scope.documents scope)
    ∧ NoDup (Value.type <$> Scope.documents scope).

(** The types of the documents of the scope kept under [scopeType], none
    when there is no such scope. *)
Definition document_types (scopeType : Scope.Type_)
    (scopes : list (Scope.Type_ * Scope.t)) : list Value.Type_ :=
  from_option (λ scope, Value.type <$> Scope.documents scope) []
    (map_find scopeType scopes).

(** The elements of a list that are in [seen] or occur earlier in the
    list, each as often as it is repeated. *)
Fixpoint later_occurrences_from {A : Type} `{EqDecision A}
    (seen l : list A) : list A :=
  match l with
  | [] => []
  | x :: l =>
      if decide (x ∈ seen) then x :: later_occurrences_from seen l
      else later_occurrences_from (x :: seen) l
  end.

(** A value type that is not the type of the fields of its scope. *)
Definition IsDocumentType (type : Value.Type_) : Prop :=
  (ScopeTypeForValueType type ≫= FieldsTypeForScopeType) ≠ Some type.

#[global] Instance IsDocumentType_dec type : Decision (IsDocumentType type).
Proof. unfold IsDocumentType. apply _. Defined.

(** What a row has when the loop pushes a string for it. *)
Definition RowFilled (fields : gmap string string)
    (document : option Value.t) (row : EditDocumentScheme.Row) : Prop :=
  match EditDocumentScheme.valueClass row with
  | EditDocumentScheme.Fields =>
      ∃ value,
        fields !! EditDocumentScheme.key row = Some value
        ∧ rejected row value = false
  | EditDocumentScheme.Scans =>
      ∃ scanned value,
        document = Some scanned
        ∧ Value.data_parsed_fields scanned !! EditDocumentScheme.key row
          = Some value
        ∧ rejected row value = false
  end.

(** ** Sample inputs

    A provider of English strings, small scheme tables and a few values,
    on which the properties below are exercised. *)
Module Samples.

Definition lang (key : LangKey) : string :=
  match key with
  | lng_passport_identity_passport => "Passport"
  | lng_passport_identity_license => "Driver's license"
  | lng_passport_identity_card => "Identity card"
  | lng_passport_address_statement => "Bank statement"
  | lng_passport_address_bill => "Utility Bill"
  | lng_passport_address_agreement => "Rental agreement"
  | lng_passport_personal_details => "Personal details"
  | lng_passport_personal_details_enter => "Enter your personal details"
  | lng_passport_identity_passport_upload => "Upload a scan of your passport"
  | lng_passport_identity_card_upload => "Upload a scan of your identity card"
  | lng_passport_identity_license_upload =>
      "Upload a scan of your driver's license"
  | lng_passport_identity_title => "Identity document"
  | lng_passport_identity_description => "Upload a scan of your document"
  | lng_passport_address => "Address"
  | lng_passport_address_enter => "Enter your address"
  | lng_passport_address_statement_upload =>
      "Upload a scan of your bank statement"
  | lng_passport_address_bill_upload => "Upload a scan of your utility bill"
  | lng_passport_address_agreement_upload =>
      "Upload a scan of your rental agreement"
  | lng_passport_address_title => "Residential address"
  | lng_passport_address_description => "Upload a proof of your address"
  | lng_passport_phone_title => "Phone number"
  | lng_passport_phone_description => "Enter your phone number"
  | lng_passport_email_title => "Email"
  | lng_passport_email_description => "Enter your email address"
  end.

Definition NotEmptyValidate (value : string) : bool :=
  negb (bool_decide (value = "")).

Definition CountryFormat (value : string) : string :=
  if bool_decide (value = "NL") then "Netherlands" else value.

Definition field (key : string) := EditDocumentScheme.mkRow
  EditDocumentScheme.Fields key (Some NotEmptyValidate) None.

Definition GetDocumentScheme (type : Scope.Type_) : EditDocumentScheme.t :=
  match type with
  | Scope.Identity =>
      EditDocumentScheme.mk
        [ field "first_name"; field "last_name";
          EditDocumentScheme.mkRow EditDocumentScheme.Fields
            "country_code" (Some NotEmptyValidate) (Some CountryFormat);
          EditDocumentScheme.mkRow EditDocumentScheme.Scans
            "document_no" (Some NotEmptyValidate) None ]
  | _ =>
      EditDocumentScheme.mk
        [ field "street_line1"; field "city";
          EditDocumentScheme.mkRow EditDocumentScheme.Fields
            "country_code" (Some NotEmptyValidate) (Some CountryFormat) ]
  end.

(** A table whose document row carries a formatter. *)
Definition NumberFormat (value : string) : string := "No. " +:+ value.

Definition GetNumberedDocumentScheme (type : Scope.Type_)
    : EditDocumentScheme.t :=
  EditDocumentScheme.mk
    [ field "first_name";
      EditDocumentScheme.mkRow EditDocumentScheme.Scans
        "document_no" (Some NotEmptyValidate) (Some NumberFormat) ].

Definition GetContactScheme (type : Scope.Type_) : EditContactScheme.t :=
  EditContactScheme.mk None.

Definition scan : File := {| fileId := 1 |}.

Definition value (type : Value.Type_) (fields : list (string * string))
    (scans : list File) (selfie : option File) : Value.t :=
  Value.mk type (list_to_map fields) scans selfie.

Definition personalDetails : Value.t :=
  value Value.PersonalDetails
    [("first_name", "Ada"); ("last_name", "Lovelace");
     ("country_code", "NL")] [] None.

Definition passport : Value.t :=
  value Value.Passport [("document_no", "AB123")] [scan] None.

Definition identityCard : Value.t :=
  value Value.IdentityCard [("document_no", "C77")] [] None.

Definition address : Value.t :=
  value Value.Address
    [("street_line1", "Main St 1"); ("city", "Delft");
     ("country_code", "NL")] [] None.

Definition utilityBill : Value.t :=
  value Value.UtilityBill [] [scan] None.

Definition rentalAgreement : Value.t :=
  value Value.RentalAgreement [] [] None.

Definition phone : Value.t :=
  value Value.Phone [("value", "+1 555 0100")] [] None.

(** An Identity scope with one Passport that has scans and no selfie. *)
Definition identityScope (selfieRequired : bool) : Scope.t :=
  Scope.mk Scope.Identity personalDetails [passport] selfieRequired.

(** An Address scope with a Utility Bill that has scans and a Rental
    Agreement that has none. *)
Definition addressScope : Scope.t :=
  Scope.mk Scope.Address address [utilityBill; rentalAgreement] false.

Definition phoneScope : Scope.t := Scope.mk Scope.Phone phone [] false.

(** A form that requests the Passport twice. *)
Definition form : Form :=
  mkForm
    (list_to_map
       [ (Value.PersonalDetails, personalDetails);
         (Value.Passport, passport);
         (Value.IdentityCard, identityCard);
         (Value.Address, address);
         (Value.UtilityBill, utilityBill);
         (Value.Phone, phone) ])
    [ Value.Phone; Value.UtilityBill; Value.Passport; Value.IdentityCard;
      Value.Passport; Value.PersonalDetails ]
    true.

End Samples.

(** Further sample inputs: a form that requests the Phone twice, and
    scopes that the builder does not make. *)
Module MoreSamples.

Definition repeatedPhoneForm : Form :=
  mkForm (values Samples.form)
    [ Value.Phone; Value.PersonalDetails; Value.Passport; Value.Phone;
      Value.Passport ]
    false.

Definition scannedPhone : Value.t :=
  Samples.value Value.Phone [("value", "+1 555 0100")] [Samples.scan] None.

(** An Identity scope whose first document with scans is a Phone value. *)
Definition unlabelledScope : Scope.t :=
  Scope.mk Scope.Identity Samples.personalDetails
    [scannedPhone; Samples.passport] false.

(** An Identity scope whose only document is a Utility Bill. *)
Definition strayScope : Scope.t :=
  Scope.mk Scope.Identity Samples.personalDetails [Samples.utilityBill] false.

(** An Identity scope whose only document has no scans. *)
Definition unscannedScope : Scope.t :=
  Scope.mk Scope.Identity Samples.personalDetails [Samples.identityCard]
    false.

(** The Address scope of [Samples.addressScope] with the city missing
    from its fields. *)
Definition incompleteAddressScope : Scope.t :=
  Scope.mk Scope.Address
    (Samples.value Value.Address
       [("street_line1", "Main St 1"); ("country_code", "NL")] [] None)
    [Samples.utilityBill; Samples.rentalAgreement] false.

(** An Address scope whose only document is a Utility Bill with scans. *)
Definition billScope : Scope.t :=
  Scope.mk Scope.Address Samples.address [Samples.utilityBill] false.

End MoreSamples.

(** * Properties *)

(** ** Category maps *)

Lemma ScopeTypeForValueType_eq type :
  ScopeTypeForValueType type =
  Some match type with
       | Value.PersonalDetails | Value.Passport | Value.DriverLicense
       | Value.IdentityCard => Scope.Identity
       | Value.Address | Value.UtilityBill | Value.BankStatement
       | Value.RentalAgreement => Scope.Address
       | Value.Phone => Scope.Phone
       | Value.Email => Scope.Email
       end.
Proof. by destruct type. Qed.

Lemma FieldsTypeForScopeType_eq type :
  FieldsTypeForScopeType type =
  Some match type with
       | Scope.Identity => Value.PersonalDetails
       | Scope.Address => Value.Address
       | Scope.Phone => Value.Phone
       | Scope.Email => Value.Email
       end.
Proof. by destruct type. Qed.

(** C4. Both category maps are total (no assertion fails on any of their
    enumerators), and mapping a scope type to the type of its fields and
    back gives the scope type again; so does starting from the scope type
    of any value type. *)
Theorem category_maps_round_trip :
  (∀ type, is_Some (ScopeTypeForValueType type))
  ∧ (∀ scopeType, is_Some (FieldsTypeForScopeType scopeType))
  ∧ (∀ scopeType,
       (FieldsTypeForScopeType scopeType ≫= ScopeTypeForValueType)
       = Some scopeType)
  ∧ (∀ type,
       ((ScopeTypeForValueType type ≫= FieldsTypeForScopeType)
          ≫= ScopeTypeForValueType)
       = ScopeTypeForValueType type).
Proof.
  split_and!.
  - intros type. rewrite ScopeTypeForValueType_eq. eauto.
  - intros scopeType. rewrite FieldsTypeForScopeType_eq. eauto.
  - by intros [].
  - by intros [].
Qed.

Lemma DocumentTypeOf_cases scopeType type :
  DocumentTypeOf scopeType type ↔
  (scopeType = Scope.Identity
   ∧ (type = Value.Passport ∨ type = Value.IdentityCard
      ∨ type = Value.DriverLicense))
  ∨ (scopeType = Scope.Address
     ∧ (type = Value.BankStatement ∨ type = Value.UtilityBill
        ∨ type = Value.RentalAgreement)).
Proof.
  unfold DocumentTypeOf.
  rewrite ScopeTypeForValueType_eq, FieldsTypeForScopeType_eq.
  split.
  - intros [[= <-] Hne]. destruct type; naive_solver.
  - intros [[-> [->| [->| ->]]]|[-> [->| [->| ->]]]]; split; congruence.
Qed.

(** ** Summary formatter *)

Section SummaryFacts.

Variable lang : LangKey → string.
Variable GetDocumentScheme : Scope.Type_ → EditDocumentScheme.t.
Variable GetContactScheme : Scope.Type_ → EditContactScheme.t.


(** The representative document is the first document with scans: the
    documents before it have none. *)
Lemma RepresentativeDocument_Some scope document :
  RepresentativeDocument scope = Some document ↔
  ∃ before after,
    Scope.documents scope = (before ++ document :: after)%list
    ∧ Forall (λ earlier, Value.scans earlier = []) before
    ∧ Value.scans document ≠ [].
Proof.
  unfold RepresentativeDocument.
  induction (Scope.documents scope) as [|first rest IH]; simpl.
  - split; [done|]. intros (before & after & Heq & _).
    by destruct before.
  - destruct (Value.scans first) as [|file files] eqn:Hscans; simpl.
    + rewrite IH. split.
      * intros (before & after & -> & Hbefore & Hdoc).
        exists (first :: before), after. split_and!; auto.
      * intros (before & after & Heq & Hbefore & Hdoc).
        destruct before as [|first' before]; simplify_eq/=.
        exists before, after. split_and!; auto.
        by apply Forall_cons_1 in Hbefore as [_ ?].
    + split.
      * intros [= <-]. exists [], rest. split_and!; auto.
        by rewrite Hscans.
      * intros (before & after & Heq & Hbefore & Hdoc).
        destruct before as [|first' before]; simplify_eq/=; [done|].
        apply Forall_cons_1 in Hbefore as [? _]. congruence.
Qed.

Lemma RepresentativeDocument_None scope :
  RepresentativeDocument scope = None ↔
  Forall (λ document, Value.scans document = []) (Scope.documents scope).
Proof.
  unfold RepresentativeDocument.
  induction (Scope.documents scope) as [|first rest IH]; simpl.
  - split; auto.
  - destruct (Value.scans first) as [|file files] eqn:Hscans; simpl.
    + rewrite IH, Forall_cons. naive_solver.
    + rewrite Forall_cons. split; [done|]. intros [? _]. congruence.
Qed.

Lemma RepresentativeDocument_elem_of scope document :
  RepresentativeDocument scope = Some document →
  document ∈ Scope.documents scope.
Proof.
  intros (before & after & -> & _)%RepresentativeDocument_Some.
  set_solver.
Qed.

(** The loop pushes the strings of the rows, in order, after what the
    list held; it returns empty as soon as one row has no string. *)
Lemma RowsLoop_mapM fields document rows list :
  RowsLoop fields document rows list =
  (λ pushed, list ++ pushed)%list <$> mapM (RowString fields document) rows.
Proof.
  revert list. induction rows as [|row rows IH]; intros list; simpl.
  - by rewrite app_nil_r.
  - destruct (RowString fields document row) as [pushed|]; simpl; [|done].
    rewrite IH. destruct (mapM _ rows); simpl; [|done].
    by rewrite <-app_assoc.
Qed.

Lemma DocumentLabel_belongs scopeType type :
  DocumentTypeOf scopeType type → is_Some (DocumentLabel type).
Proof.
  rewrite DocumentTypeOf_cases. unfold DocumentLabel. naive_solver.
Qed.

(** The summary of a document-backed scope whose label, if one is
    pushed, exists. *)
Lemma ReadyString_documents scope :
  Scope.type scope = Scope.Identity ∨ Scope.type scope = Scope.Address →
  ∀ label : list string,
    match RepresentativeDocument scope with
    | Some document =>
        if bool_decide (1 < length (Scope.documents scope)) then
          (λ key, [lang key]) <$> DocumentLabel (Value.type document)
        else Some []
    | None => Some []
    end = Some label →
    ComputeScopeRowReadyString lang GetDocumentScheme GetContactScheme scope =
    Some (if DocumentNotReady scope (RepresentativeDocument scope) then ""
          else
            match mapM (RowString
                          (Value.data_parsed_fields (Scope.fields scope))
                          (RepresentativeDocument scope))
                    (EditDocumentScheme.rows
                       (GetDocumentScheme (Scope.type scope))) with
            | Some pushed => String.concat ", " (label ++ pushed)
            | None => ""
            end).
Proof.
  intros Htype label Hlabel. unfold ComputeScopeRowReadyString.
  assert (match RepresentativeDocument scope with
          | Some document =>
              if bool_decide (1 < length (Scope.documents scope)) then
                DocumentLabel (Value.type document)
                  ≫= λ label, Some [lang label]
              else Some []
          | None => Some []
          end = Some label) as ->.
  { destruct (RepresentativeDocument scope); [|done].
    case_bool_decide; [|done].
    by destruct (DocumentLabel _). }
  simpl. rewrite RowsLoop_mapM.
  destruct Htype as [-> | ->];
    destruct (DocumentNotReady _ _); try done;
    by destruct (mapM _ _).
Qed.

(** The list holds the label when a representative exists among several
    documents that belong to the scope. *)
Lemma label_pushed scope :
  ScopeDocumentsBelong scope →
  ∃ label : list string,
    match RepresentativeDocument scope with
    | Some document =>
        if bool_decide (1 < length (Scope.documents scope)) then
          (λ key, [lang key]) <$> DocumentLabel (Value.type document)
        else Some []
    | None => Some []
    end = Some label.
Proof.
  intros Hbelong.
  destruct (RepresentativeDocument scope) as [document|] eqn:Hdoc; eauto.
  case_bool_decide; eauto.
  apply RepresentativeDocument_elem_of in Hdoc.
  eapply Forall_forall in Hbelong; [|done].
  apply DocumentLabel_belongs in Hbelong as [key ->]. eauto.
Qed.

(** C6. An Identity scope that requires a selfie and whose representative
    document lacks one has the empty summary, whatever its fields and the
    scheme rows are; the formatter returns it without aborting. The
    documents are of the scope's document types, as the data model has
    them. *)
Theorem missing_selfie_empty_summary scope document :
  Scope.type scope = Scope.Identity →
  Scope.selfieRequired scope = true →
  ScopeDocumentsBelong scope →
  RepresentativeDocument scope = Some document →
  Value.selfie document = None →
  ComputeScopeRowReadyString lang GetDocumentScheme GetContactScheme scope
  = Some "".
Proof.
  intros Htype Hrequired Hbelong Hdoc Hselfie.
  destruct (label_pushed scope Hbelong) as [label Hlabel].
  rewrite (ReadyString_documents scope (or_introl Htype) label Hlabel).
  rewrite Hdoc. unfold DocumentNotReady.
  rewrite Hrequired, Hselfie.
  rewrite (bool_decide_eq_false_2 (is_Some None)) by apply is_Some_None.
  by rewrite orb_true_r.
Qed.

(** The summary of a contact scope. *)
Lemma ReadyString_contact scope :
  Scope.type scope = Scope.Phone ∨ Scope.type scope = Scope.Email →
  ComputeScopeRowReadyString lang GetDocumentScheme GetContactScheme scope =
  Some match Value.data_parsed_fields (Scope.fields scope) !! "value" with
       | None => ""
       | Some value =>
           match EditContactScheme.format
                   (GetContactScheme (Scope.type scope)) with
           | Some format => format value
           | None => value
           end
       end.
Proof.
  unfold ComputeScopeRowReadyString.
  intros [-> | ->]; by destruct (_ !! "value").
Qed.

(** C7. A Phone or Email scope is summarized from the key "value" of its
    fields alone: empty when the key is absent, otherwise the value,
    passed through the contact scheme's formatter when there is one and
    as it is when there is none; nothing is joined. *)
Theorem contact_summary scope :
  Scope.type scope = Scope.Phone ∨ Scope.type scope = Scope.Email →
  (Value.data_parsed_fields (Scope.fields scope) !! "value" = None →
   ComputeScopeRowReadyString lang GetDocumentScheme GetContactScheme scope
   = Some "")
  ∧ ∀ value,
      Value.data_parsed_fields (Scope.fields scope) !! "value" = Some value →
      (∀ format,
         EditContactScheme.format (GetContactScheme (Scope.type scope))
           = Some format →
         ComputeScopeRowReadyString lang GetDocumentScheme GetContactScheme
           scope = Some (format value))
      ∧ (EditContactScheme.format (GetContactScheme (Scope.type scope))
           = None →
         ComputeScopeRowReadyString lang GetDocumentScheme GetContactScheme
           scope = Some value).
Proof.
  intros Htype. rewrite (ReadyString_contact scope Htype).
  split; [by intros ->|].
  intros value ->. split; [by intros format ->|by intros ->].
Qed.

(** The label keys of the document types, as the switch of the formatter
    has them. *)
Lemma DocumentLabel_key type key :
  (type, key) ∈
    [ (Value.Passport, lng_passport_identity_passport);
      (Value.DriverLicense, lng_passport_identity_license);
      (Value.IdentityCard, lng_passport_identity_card);
      (Value.BankStatement, lng_passport_address_statement);
      (Value.UtilityBill, lng_passport_address_bill);
      (Value.RentalAgreement, lng_passport_address_agreement) ] →
  DocumentLabel type = Some key.
Proof.
  intros Hin.
  repeat (apply elem_of_cons in Hin as [[= -> ->]|Hin]); try done.
  by apply elem_of_nil in Hin.
Qed.

(** C8. In an Identity or Address scope whose documents belong to it, the
    representative document is the first document with scans, and there
    is none exactly when no document has scans. When it exists among
    more than one document, its type is one of the six document types,
    and the summary is either empty, when it is cut short by a required
    and missing selfie or by a scheme row without an accepted value, or
    else the label of that type (Passport, Driver License, Identity
    Card, Bank Statement, Utility Bill or Rental Agreement) followed by
    the strings of the scheme rows, joined with ", ". *)
Theorem representative_document_label scope :
  Scope.type scope = Scope.Identity ∨ Scope.type scope = Scope.Address →
  ScopeDocumentsBelong scope →
  match RepresentativeDocument scope with
  | Some document =>
      (∃ before after,
         Scope.documents scope = (before ++ document :: after)%list
         ∧ Forall (λ earlier, Value.scans earlier = []) before
         ∧ Value.scans document ≠ [])
      ∧ (1 < length (Scope.documents scope) →
         (∃ key,
            (Value.type document, key) ∈
              [ (Value.Passport, lng_passport_identity_passport);
                (Value.DriverLicense, lng_passport_identity_license);
                (Value.IdentityCard, lng_passport_identity_card);
                (Value.BankStatement, lng_passport_address_statement);
                (Value.UtilityBill, lng_passport_address_bill);
                (Value.RentalAgreement, lng_passport_address_agreement) ])
         ∧ ∀ key,
             (Value.type document, key) ∈
               [ (Value.Passport, lng_passport_identity_passport);
                 (Value.DriverLicense, lng_passport_identity_license);
                 (Value.IdentityCard, lng_passport_identity_card);
                 (Value.BankStatement, lng_passport_address_statement);
                 (Value.UtilityBill, lng_passport_address_bill);
                 (Value.RentalAgreement, lng_passport_address_agreement) ] →
             (∀ pushed,
                DocumentNotReady scope (Some document) = false →
                mapM (RowString
                        (Value.data_parsed_fields (Scope.fields scope))
                        (Some document))
                  (EditDocumentScheme.rows
                     (GetDocumentScheme (Scope.type scope)))
                = Some pushed →
                ComputeScopeRowReadyString lang GetDocumentScheme
                  GetContactScheme scope
                = Some (String.concat ", " (lang key :: pushed)))
             ∧ (DocumentNotReady scope (Some document) = true
                ∨ mapM (RowString
                          (Value.data_parsed_fields (Scope.fields scope))
                          (Some document))
                    (EditDocumentScheme.rows
                       (GetDocumentScheme (Scope.type scope)))
                  = None →
                ComputeScopeRowReadyString lang GetDocumentScheme
                  GetContactScheme scope
                = Some ""))
  | None =>
      Forall (λ document, Value.scans document = []) (Scope.documents scope)
  end.
Proof.
  intros Htype Hbelong.
  destruct (RepresentativeDocument scope) as [document|] eqn:Hdoc.
  - split; [by apply RepresentativeDocument_Some|].
    intros Hseveral. split.
    + pose proof (RepresentativeDocument_elem_of _ _ Hdoc) as Helem.
      eapply Forall_forall in Hbelong; [|done].
      apply DocumentTypeOf_cases in Hbelong
        as [[_ [->|[->| ->]]]|[_ [->|[->| ->]]]];
        eexists; eauto 10 using list_elem_of_here, list_elem_of_further.
    + intros key Hkey%DocumentLabel_key.
      assert (ComputeScopeRowReadyString lang GetDocumentScheme
                GetContactScheme scope
              = Some (if DocumentNotReady scope (Some document) then ""
                      else
                        match mapM (RowString
                                      (Value.data_parsed_fields
                                         (Scope.fields scope))
                                      (Some document))
                                (EditDocumentScheme.rows
                                   (GetDocumentScheme
                                      (Scope.type scope))) with
                        | Some pushed =>
                            String.concat ", " (lang key :: pushed)
                        | None => ""
                        end)) as ->.
      { rewrite (ReadyString_documents scope Htype [lang key]).
        - by rewrite Hdoc.
        - rewrite Hdoc, bool_decide_eq_true_2 by done. by rewrite Hkey. }
      split.
      * by intros pushed -> ->.
      * intros [-> | ->]; [done|]. by destruct (DocumentNotReady _ _).
  - by apply RepresentativeDocument_None.
Qed.

(** C10. A representative document has scans, so the test for empty
    scans in the early return never holds for it: the early return is
    taken exactly when a selfie is required and the representative has
    none. *)
Theorem representative_has_scans scope document :
  RepresentativeDocument scope = Some document →
  empty_ (Value.scans document) = false
  ∧ DocumentNotReady scope (RepresentativeDocument scope)
    = (Scope.selfieRequired scope
       && negb (bool_decide (is_Some (Value.selfie document))))
  ∧ (DocumentNotReady scope (RepresentativeDocument scope) = true →
     Scope.selfieRequired scope = true ∧ Value.selfie document = None).
Proof.
  intros Hdoc. rewrite Hdoc.
  apply RepresentativeDocument_Some in Hdoc
    as (before & after & _ & _ & Hscans).
  assert (empty_ (Value.scans document) = false) as Hempty
    by by destruct (Value.scans document).
  unfold DocumentNotReady. rewrite Hempty. simpl. split_and!; [done..|].
  destruct (Scope.selfieRequired scope); [|done].
  destruct (Value.selfie document); [|done].
  rewrite bool_decide_eq_true_2; [done|by eexists].
Qed.

(** ** Row presenter *)

Lemma Row_Some scope title_key subtitle_key row :
  Row lang GetDocumentScheme GetContactScheme scope title_key subtitle_key
    = Some row →
  ComputeScopeRowReadyString lang GetDocumentScheme GetContactScheme scope
    = Some (readySummary row)
  ∧ title row = lang title_key ∧ subtitle row = lang subtitle_key.
Proof.
  unfold Row.
  destruct (ComputeScopeRowReadyString lang GetDocumentScheme
              GetContactScheme scope)
    as [ready|]; simpl; [|done].
  by intros [= <-].
Qed.


End SummaryFacts.

(** ** The ordered map of scopes *)

Lemma rank_inj a b : Scope.rank a = Scope.rank b → a = b.
Proof. by destruct a, b. Qed.

Section ScopeMapFacts.

Context {V : Type}.
Implicit Types (m : list (Scope.Type_ * V)) (k : Scope.Type_) (v : V).

Lemma map_find_None k m : map_find k m = None ↔ k ∉ m.*1.
Proof.
  induction m as [|[k' v'] m IH]; simpl.
  - split; [|done]. intros _. apply not_elem_of_nil.
  - rewrite not_elem_of_cons. case_decide; naive_solver.
Qed.

Lemma map_find_Some_elem k v m : map_find k m = Some v → (k, v) ∈ m.
Proof.
  induction m as [|[k' v'] m IH]; simpl; [done|].
  case_decide; intros; simplify_eq; set_solver.
Qed.

Lemma elem_map_find k v m :
  NoDup m.*1 → (k, v) ∈ m → map_find k m = Some v.
Proof.
  induction m as [|[k' v'] m IH]; simpl.
  - intros _ ?%elem_of_nil. done.
  - intros [Hfresh Hnodup]%NoDup_cons [Heq | Hin]%elem_of_cons.
    + simplify_eq. by rewrite decide_True.
    + rewrite decide_False; [by apply IH|].
      intros ->. apply Hfresh. apply list_elem_of_fmap.
      by exists (k, v).
Qed.

Lemma map_find_insert k v m :
  map_find k m = None → map_find k (ScopeMap.insert k v m) = Some v.
Proof.
  induction m as [|[k' v'] m IH]; simpl.
  - by rewrite decide_True.
  - case_decide; [done|]. intros Hm.
    case_decide; simpl; [by rewrite decide_True|].
    rewrite decide_False by done. by apply IH.
Qed.

Lemma map_find_insert_ne k k' v m :
  k ≠ k' → map_find k' (ScopeMap.insert k v m) = map_find k' m.
Proof.
  intros Hne. induction m as [|[k0 v0] m IH]; simpl.
  - by rewrite decide_False.
  - case_decide; simpl.
    + by rewrite decide_False.
    + by rewrite IH.
Qed.

Lemma elem_of_keys_insert k k' v m :
  k' ∈ (ScopeMap.insert k v m).*1 ↔ k' = k ∨ k' ∈ m.*1.
Proof.
  induction m as [|[k0 v0] m IH]; simpl.
  - set_solver.
  - case_decide; simpl; set_solver.
Qed.

Lemma sorted_keys_insert k v m :
  k ∉ m.*1 →
  StronglySorted before m.*1 →
  StronglySorted before (ScopeMap.insert k v m).*1.
Proof.
  induction m as [|[k0 v0] m IH]; simpl.
  - intros _ _. repeat constructor.
  - intros [Hne Hfresh]%not_elem_of_cons.
    intros [Hall Hsorted]%StronglySorted_cons.
    case_decide as Hlt; simpl; apply StronglySorted_cons.
    + split; [|by apply StronglySorted_cons].
      constructor; [done|].
      eapply Forall_impl; [done|]. unfold before in *. simpl. lia.
    + split; [|by apply IH].
      apply Forall_forall. intros k' [-> | Hin]%elem_of_keys_insert.
      * unfold before.
        assert (Scope.rank k ≠ Scope.rank k0)
          by (intros ?%rank_inj; done).
        lia.
      * by eapply Forall_forall in Hall.
Qed.

Lemma sorted_keys_NoDup m : StronglySorted before m.*1 → NoDup m.*1.
Proof.
  induction m.*1 as [|k ks IH]; [constructor|].
  intros [Hall Hsorted]%StronglySorted_cons.
  constructor; [|by apply IH].
  intros Hin. eapply Forall_forall in Hall; [|done].
  unfold before in Hall. lia.
Qed.

Lemma keys_modify k (f : V → V) m : (ScopeMap.modify k f m).*1 = m.*1.
Proof.
  induction m as [|[k0 v0] m IH]; simpl; [done|].
  case_decide; csimpl; by rewrite ?IH.
Qed.

Lemma map_find_modify k k' (f : V → V) m :
  map_find k' (ScopeMap.modify k f m) =
  if decide (k = k') then f <$> map_find k m else map_find k' m.
Proof.
  induction m as [|[k0 v0] m IH]; simpl.
  - by case_decide.
  - repeat (case_decide; simplify_eq/=); rewrite ?IH;
      repeat (case_decide; simplify_eq/=); done.
Qed.

Lemma modify_id k (f : V → V) v m :
  map_find k m = Some v → f v = v → ScopeMap.modify k f m = m.
Proof.
  intros Hfind Hf. induction m as [|[k0 v0] m IH]; simpl in *; [done|].
  case_decide; simplify_eq/=; [by rewrite Hf|]. by rewrite IH.
Qed.

End ScopeMapFacts.

(** A list of scope types in the order of the enumeration is the list of
    all four, restricted to its members. *)
Lemma sorted_scope_types (l : list Scope.Type_) :
  StronglySorted before l → l = filter (.∈ l) all_scope_types.
Proof.
  intros Hsorted.
  apply (StronglySorted_unique_strong before); [| done | |].
  - unfold before. intros; lia.
  - unfold all_scope_types. rewrite !filter_cons, filter_nil.
    repeat case_decide; repeat constructor; unfold before; simpl; lia.
  - apply NoDup_Permutation.
    + clear -Hsorted. induction Hsorted as [|k l Hs IH Hall]; constructor;
        [|done].
      intros Hin. eapply Forall_forall in Hall; [|done].
      unfold before in Hall. lia.
    + apply NoDup_filter. unfold all_scope_types.
      repeat constructor; set_solver.
    + intros k. rewrite list_elem_of_filter.
      split; [|naive_solver]. intros Hin. split; [done|].
      unfold all_scope_types. destruct k; set_solver.
Qed.

(** ** Scope builder *)

#[local] Arguments findValue : simpl never.
#[local] Arguments ScopeTypeForValueType : simpl never.
#[local] Arguments FieldsTypeForScopeType : simpl never.
#[local] Arguments ScopeMap.emplace : simpl never.

Lemma findValue_eq form type : findValue form type = values form !! type.
Proof.
  unfold findValue, Assert. case_bool_decide as Hsome; simpl; [done|].
  destruct (values form !! type); [|done]. destruct Hsome. eauto.
Qed.

Lemma modify_insert {V} k (f : V → V) v (m : list (Scope.Type_ * V)) :
  map_find k m = None →
  ScopeMap.modify k f (ScopeMap.insert k v m) = ScopeMap.insert k (f v) m.
Proof.
  induction m as [|[k0 v0] m IH]; simpl.
  - by rewrite decide_True.
  - case_decide; [done|]. intros Hm.
    case_decide; simpl; [by rewrite decide_True|].
    rewrite decide_False by done. by rewrite IH.
Qed.

Lemma list_find_type type (documents : list Value.t) :
  is_Some (list_find (λ value, Value.type value = type) documents) ↔
  type ∈ Value.type <$> documents.
Proof.
  rewrite list_elem_of_fmap. split.
  - intros [[i value] (Hin & Htype & _)%list_find_Some].
    exists value. split; [done|]. by eapply list_elem_of_lookup_2.
  - intros (value & -> & Hin).
    destruct (list_find _ documents) eqn:Hfind; [eauto|].
    eapply list_find_None, Forall_forall in Hfind; [|done]. done.
Qed.

(** One iteration, on scopes that the builder has made: the scope
    [scope] of the requested type is the one kept, or a new one; the
    requested type is logged when [scope] has such a document, skipped
    when it is the fields type, and its value pushed otherwise. *)
Lemma ComputeScopes_body_eq form scopes type scopeType fieldsType primary :
  ScopesBuilt form scopes →
  ScopeTypeForValueType type = Some scopeType →
  FieldsTypeForScopeType scopeType = Some fieldsType →
  values form !! fieldsType = Some primary →
  let scope :=
    default (Scope.mk scopeType primary []
               (bool_decide (scopeType = Scope.Identity)
                && identitySelfieRequired form))
      (map_find scopeType scopes) in
  let scopes' :=
    if map_find scopeType scopes is Some _ then scopes
    else ScopeMap.insert scopeType scope scopes in
  map_find scopeType scopes' = Some scope
  ∧ ComputeScopes_body form scopes type =
    if decide (type ∈ Value.type <$> Scope.documents scope)
    then Some (scopes', [type])
    else if decide (type = fieldsType) then Some (scopes', [])
    else
      document ← values form !! type;
      Some (ScopeMap.modify scopeType
              (Scope.documents_push_back document) scopes', []).
Proof.
  intros [Hsorted Hbuilt] HscopeType HfieldsType Hprimary scope scopes'.
  assert (ScopeMap.modify scopeType
            (Scope.set_selfieRequired
               (bool_decide (scopeType = Scope.Identity)
                && identitySelfieRequired form))
            (ScopeMap.emplace scopeType
               (Scope.Scope scopeType primary) scopes).1 = scopes'
          ∧ map_find scopeType scopes' = Some scope) as [Hscopes' Hfind].
  { unfold ScopeMap.emplace. subst scope scopes'.
    destruct (map_find scopeType scopes) as [kept|] eqn:Hkept; simpl.
    - split; [|done]. eapply modify_id; [done|].
      destruct (Hbuilt _ _ Hkept) as (_ & _ & <-). by destruct kept.
    - split; [by rewrite modify_insert|by apply map_find_insert]. }
  split; [done|].
  unfold ComputeScopes_body.
  rewrite HscopeType. simpl. rewrite HfieldsType. simpl.
  rewrite (findValue_eq form fieldsType), Hprimary. simpl.
  destruct (ScopeMap.emplace _ _ scopes) as [emplaced ok].
  simpl in Hscopes'. rewrite Hscopes', Hfind. simpl.
  destruct (list_find _ (Scope.documents scope)) as [found|] eqn:Hfound.
  - rewrite decide_True; [done|]. apply list_find_type. by rewrite Hfound.
  - rewrite decide_False.
    2: { intros Hin%list_find_type. rewrite Hfound in Hin.
         by destruct Hin. }
    destruct (decide (type = fieldsType)).
    + by rewrite bool_decide_eq_false_2 by naive_solver.
    + rewrite bool_decide_eq_true_2 by done. by rewrite findValue_eq.
Qed.

Lemma ComputeScopes_body_primary form scopes type scopeType fieldsType :
  ScopeTypeForValueType type = Some scopeType →
  FieldsTypeForScopeType scopeType = Some fieldsType →
  is_Some (ComputeScopes_body form scopes type) →
  is_Some (values form !! fieldsType).
Proof.
  intros HscopeType HfieldsType. unfold ComputeScopes_body.
  rewrite HscopeType. simpl. rewrite HfieldsType. simpl.
  rewrite (findValue_eq form fieldsType).
  destruct (values form !! fieldsType); [eauto|]. by intros [? [=]].
Qed.

(** The scopes after [emplace] and the assignment of the selfie flag. *)
Lemma emplaced_built form scopes scopeType fieldsType primary :
  ScopesBuilt form scopes →
  FieldsTypeForScopeType scopeType = Some fieldsType →
  values form !! fieldsType = Some primary →
  let scope :=
    default (Scope.mk scopeType primary []
               (bool_decide (scopeType = Scope.Identity)
                && identitySelfieRequired form))
      (map_find scopeType scopes) in
  let scopes' :=
    if map_find scopeType scopes is Some _ then scopes
    else ScopeMap.insert scopeType scope scopes in
  ScopesBuilt form scopes'
  ∧ (∀ k, k ∈ scopes'.*1 ↔ k ∈ scopes.*1 ∨ k = scopeType)
  ∧ (DocumentsBuilt form scopes → DocumentsBuilt form scopes')
  ∧ (∀ k, document_types k scopes' = document_types k scopes).
Proof.
  intros [Hsorted Hbuilt] HfieldsType Hprimary scope scopes'.
  subst scope scopes'.
  destruct (map_find scopeType scopes) as [kept|] eqn:Hkept; simpl.
  - split_and!; [done| |done..].
    intros k. split; [auto|]. intros [?| ->]; [done|].
    destruct (decide (scopeType ∈ scopes.*1)) as [|Hnot]; [done|].
    apply map_find_None in Hnot. congruence.
  - split_and!.
    + split.
      * apply sorted_keys_insert; [|done]. by apply map_find_None.
      * intros k scope. destruct (decide (scopeType = k)) as [<-|Hne].
        -- rewrite map_find_insert by done. intros [= <-].
           split_and!; simpl; try done.
           intros fieldsType'. rewrite HfieldsType. by intros [= <-].
        -- rewrite map_find_insert_ne by done. apply Hbuilt.
    + intros k. rewrite elem_of_keys_insert. naive_solver.
    + intros Hdocuments k scope.
      destruct (decide (scopeType = k)) as [<-|Hne].
      * rewrite map_find_insert by done. intros [= <-]. simpl.
        split; constructor.
      * rewrite map_find_insert_ne by done. apply Hdocuments.
    + intros k. unfold document_types.
      destruct (decide (scopeType = k)) as [<-|Hne].
      * rewrite map_find_insert by done. by rewrite Hkept.
      * by rewrite map_find_insert_ne by done.
Qed.

(** What one iteration does to scopes that the builder has made. *)
Lemma ComputeScopes_body_step form scopes type scopes' logged :
  ScopesBuilt form scopes →
  ComputeScopes_body form scopes type = Some (scopes', logged) →
  ScopesBuilt form scopes'
  ∧ (∀ k, k ∈ scopes'.*1 ↔
          k ∈ scopes.*1 ∨ ScopeTypeForValueType type = Some k)
  ∧ (FormValuesTyped form →
     DocumentsBuilt form scopes →
     DocumentsBuilt form scopes'
     ∧ ∀ k, document_types k scopes' =
            (document_types k scopes
             ++ if decide (DocumentTypeOf k type
                           ∧ type ∉ document_types k scopes)
                then [type] else [])%list).
Proof.
  intros Hscopes Hbody.
  destruct (ScopeTypeForValueType type) as [scopeType|] eqn:HscopeType.
  2: { by rewrite ScopeTypeForValueType_eq in HscopeType. }
  destruct (FieldsTypeForScopeType scopeType) as [fieldsType|]
    eqn:HfieldsType.
  2: { by rewrite FieldsTypeForScopeType_eq in HfieldsType. }
  destruct (ComputeScopes_body_primary form scopes type _ _
              HscopeType HfieldsType) as [primary Hprimary].
  { rewrite Hbody. eauto. }
  destruct (ComputeScopes_body_eq form scopes type _ _ _
              Hscopes HscopeType HfieldsType Hprimary) as [Hfind Heq].
  destruct (emplaced_built form scopes _ _ _ Hscopes HfieldsType Hprimary)
    as ([Hsorted Hbuilt] & Hkeys & Hdocuments & Hdocs).
  rewrite Heq in Hbody. clear Heq.
  set (scope := default _ (map_find scopeType scopes)) in *.
  set (emplaced := if map_find scopeType scopes is Some _ then _ else _) in *.
  assert (document_types scopeType scopes
          = Value.type <$> Scope.documents scope) as Hscope.
  { rewrite <-Hdocs. unfold document_types. by rewrite Hfind. }
  assert (∀ k, k ≠ scopeType → ¬ DocumentTypeOf k type) as Hother.
  { intros k Hne [Hk _]. rewrite HscopeType in Hk. congruence. }
  assert (∀ k : Scope.Type_,
            Some scopeType = Some k ↔ k = scopeType) as Hsome
    by naive_solver.
  destruct (decide (type ∈ _)) as [Hdup|Hnew];
    [|destruct (decide (type = fieldsType)) as [->|Hne]].
  - (* requested twice *)
    simplify_eq. split_and!; [done| |].
    + intros k. by rewrite Hkeys, Hsome.
    + intros _ Hbefore. split; [by apply Hdocuments|].
      intros k. rewrite Hdocs, decide_False, app_nil_r; [done|].
      intros [Hk Hnot]. destruct (decide (k = scopeType)) as [->|Hk'].
      * by rewrite Hscope in Hnot.
      * by eapply Hother.
  - (* the type of the fields *)
    simplify_eq. split_and!; [done| |].
    + intros k. by rewrite Hkeys, Hsome.
    + intros _ Hbefore. split; [by apply Hdocuments|].
      intros k. rewrite Hdocs, decide_False, app_nil_r; [done|].
      intros [[Hk Hfields] _]. rewrite HscopeType in Hk. simplify_eq.
  - (* a new document *)
    destruct (values form !! type) as [document|] eqn:Hdocument;
      simplify_eq/=.
    split_and!.
    + split; [by rewrite keys_modify|].
      intros k built. rewrite map_find_modify.
      case_decide as Hk; [subst k|by apply Hbuilt].
      rewrite Hfind. simpl. intros [= <-].
      by destruct (Hbuilt _ _ Hfind) as (? & ? & ?).
    + intros k. by rewrite keys_modify, Hkeys, Hsome.
    + intros Htyped Hbefore.
      pose proof (Htyped _ _ Hdocument) as Htype.
      assert (DocumentTypeOf scopeType type) as Hbelongs.
      { split; [done|]. rewrite HfieldsType. congruence. }
      split.
      * intros k built. rewrite map_find_modify.
        case_decide as Hk; [subst k|by apply Hdocuments].
        rewrite Hfind. simpl. intros [= <-].
        destruct (Hdocuments Hbefore _ _ Hfind) as (Hall & Hnodup).
        split; simpl.
        -- apply Forall_app. split; [done|].
           constructor; [|done]. by rewrite Htype.
        -- rewrite fmap_app. apply NoDup_app. split_and!; [done| |].
           ++ simpl. intros x Hx ->%list_elem_of_singleton.
              by rewrite Htype in Hx.
           ++ apply NoDup_singleton.
      * intros k. rewrite <-Hdocs. unfold document_types.
        rewrite map_find_modify. case_decide as Hk.
        -- subst k. rewrite Hfind. simpl.
           rewrite decide_True;
             [by rewrite fmap_app; csimpl; rewrite Htype|].
           by split.
        -- rewrite decide_False, app_nil_r; [done|].
           intros [Hk' _]. eapply Hother; [|done]. done.
Qed.

Section first_occurrences.

Context {A : Type} `{EqDecision A}.
Implicit Types (seen l : list A).

Lemma first_occurrences_from_seen seen seen' l :
  (∀ x, x ∈ seen ↔ x ∈ seen') →
  first_occurrences_from seen l = first_occurrences_from seen' l.
Proof.
  revert seen seen'. induction l as [|x l IH]; intros seen seen' Hsame;
    simpl; [done|].
  destruct (decide (x ∈ seen)) as [Hin|Hout].
  - rewrite decide_True by by apply Hsame. by apply IH.
  - rewrite decide_False by by rewrite <-Hsame.
    f_equal. apply IH. intros y. rewrite !elem_of_cons. by rewrite Hsame.
Qed.

Lemma elem_of_first_occurrences_from seen l x :
  x ∈ first_occurrences_from seen l ↔ x ∈ l ∧ x ∉ seen.
Proof.
  revert seen. induction l as [|y l IH]; intros seen; simpl.
  - set_solver.
  - case_decide.
    + rewrite IH. set_solver.
    + rewrite elem_of_cons, IH. rewrite not_elem_of_cons, elem_of_cons.
      destruct (decide (x = y)); naive_solver.
Qed.

End first_occurrences.

Lemma ComputeScopes_loop_app form scopes request request' :
  ComputeScopes_loop form scopes (request ++ request') =
  '(scopes, logged) ← ComputeScopes_loop form scopes request;
  '(scopes, logged') ← ComputeScopes_loop form scopes request';
  Some (scopes, (logged ++ logged')%list).
Proof.
  revert scopes. induction request as [|type request IH]; intros scopes;
    simpl.
  - by destruct (ComputeScopes_loop form scopes request') as [[??]|].
  - destruct (ComputeScopes_body form scopes type) as [[scopes1 logged1]|];
      simpl; [|done].
    rewrite IH.
    destruct (ComputeScopes_loop form scopes1 request)
      as [[scopes2 logged2]|]; simpl; [|done].
    destruct (ComputeScopes_loop form scopes2 request')
      as [[scopes3 logged3]|]; simpl; [|done].
    by rewrite app_assoc.
Qed.

(** What the loop does to scopes that the builder has made: it keeps
    them so and adds the scopes of the requested types; when the form
    keeps each value under its own type, it appends to the documents of
    each scope its requested document types that it has not yet, each
    once, in the order of their first request. *)
Lemma ComputeScopes_loop_built form request : ∀ scopes scopes' logged,
  ScopesBuilt form scopes →
  ComputeScopes_loop form scopes request = Some (scopes', logged) →
  ScopesBuilt form scopes'
  ∧ (∀ k, k ∈ scopes'.*1 ↔ k ∈ scopes.*1 ∨ ScopeRequested request k)
  ∧ (FormValuesTyped form →
     DocumentsBuilt form scopes →
     DocumentsBuilt form scopes'
     ∧ ∀ k, document_types k scopes' =
            (document_types k scopes
             ++ first_occurrences_from (document_types k scopes)
                  (filter (DocumentTypeOf k) request))%list).
Proof.
  induction request as [|type request IH];
    intros scopes scopes' logged Hscopes Hloop; simpl in Hloop.
  - simplify_eq. split_and!; [done| |].
    + intros k. unfold ScopeRequested. rewrite Exists_nil. naive_solver.
    + intros _ Hbefore. split; [done|].
      intros k. by rewrite filter_nil, app_nil_r.
  - destruct (ComputeScopes_body form scopes type)
      as [[scopes1 logged1]|] eqn:Hbody; simpl in Hloop; [|done].
    destruct (ComputeScopes_loop form scopes1 request)
      as [[scopes2 logged2]|] eqn:Hrest; simplify_eq/=.
    destruct (ComputeScopes_body_step _ _ _ _ _ Hscopes Hbody)
      as (Hscopes1 & Hkeys1 & Hstep).
    destruct (IH _ _ _ Hscopes1 Hrest) as (Hscopes2 & Hkeys2 & Hrun).
    split_and!; [done| |].
    + intros k. rewrite Hkeys2, Hkeys1. unfold ScopeRequested.
      rewrite Exists_cons. naive_solver.
    + intros Htyped Hbefore.
      destruct (Hstep Htyped Hbefore) as [Hdocuments1 Hdocs1].
      destruct (Hrun Htyped Hdocuments1) as [Hdocuments2 Hdocs2].
      split; [done|].
      intros k. rewrite Hdocs2, Hdocs1, filter_cons.
      destruct (decide (DocumentTypeOf k type)) as [Hbelongs|Hnot].
      * simpl. destruct (decide (type ∈ document_types k scopes)).
        -- rewrite decide_False by naive_solver. by rewrite app_nil_r.
        -- rewrite decide_True by done. rewrite <-app_assoc. simpl.
           do 2 f_equal. apply first_occurrences_from_seen.
           intros x. set_solver.
      * rewrite decide_False by naive_solver. by rewrite app_nil_r.
Qed.

Lemma ComputeScopes_body_total form scopes type scopeType fieldsType :
  ScopeTypeForValueType type = Some scopeType →
  FieldsTypeForScopeType scopeType = Some fieldsType →
  is_Some (values form !! type) →
  is_Some (values form !! fieldsType) →
  is_Some (ComputeScopes_body form scopes type).
Proof.
  intros HscopeType HfieldsType [document Hdocument] [primary Hprimary].
  unfold ComputeScopes_body.
  rewrite HscopeType. simpl. rewrite HfieldsType. simpl.
  rewrite (findValue_eq form fieldsType), Hprimary. simpl.
  destruct (ScopeMap.emplace _ _ scopes) as [emplaced ok].
  destruct (list_find _ _); [eauto|].
  case_bool_decide; [|eauto].
  rewrite findValue_eq, Hdocument. simpl. eauto.
Qed.

(** The loop runs to its end when the form resolves every requested type
    and the fields type of its scope. *)
Lemma ComputeScopes_loop_total form request : ∀ scopes,
  (∀ type, type ∈ request →
     is_Some (values form !! type) ∧
     ∀ scopeType fieldsType,
       ScopeTypeForValueType type = Some scopeType →
       FieldsTypeForScopeType scopeType = Some fieldsType →
       is_Some (values form !! fieldsType)) →
  is_Some (ComputeScopes_loop form scopes request).
Proof.
  induction request as [|type request IH]; intros scopes Hresolves; simpl.
  - eauto.
  - destruct (Hresolves type) as [Hvalue Hfields]; [set_solver|].
    destruct (ScopeTypeForValueType type) as [scopeType|] eqn:HscopeType.
    2: { by rewrite ScopeTypeForValueType_eq in HscopeType. }
    destruct (FieldsTypeForScopeType scopeType) as [fieldsType|]
      eqn:HfieldsType.
    2: { by rewrite FieldsTypeForScopeType_eq in HfieldsType. }
    destruct (ComputeScopes_body_total form scopes type _ _
                HscopeType HfieldsType Hvalue) as [[scopes1 logged1] ->];
      [by eapply Hfields|].
    simpl. destruct (IH scopes1) as [[scopes2 logged2] ->]; [|simpl; eauto].
    intros type' Hin. apply Hresolves. set_solver.
Qed.

(** A type that its scope has as a document is logged and changes
    nothing. *)
Lemma ComputeScopes_body_duplicate form scopes type scopeType :
  ScopesBuilt form scopes →
  ScopeTypeForValueType type = Some scopeType →
  type ∈ document_types scopeType scopes →
  ComputeScopes_body form scopes type = Some (scopes, [type]).
Proof.
  intros Hscopes HscopeType Hin.
  unfold document_types in Hin.
  destruct (map_find scopeType scopes) as [scope|] eqn:Hfind; simpl in Hin;
    [|by apply elem_of_nil in Hin].
  destruct (FieldsTypeForScopeType scopeType) as [fieldsType|]
    eqn:HfieldsType.
  2: { by rewrite FieldsTypeForScopeType_eq in HfieldsType. }
  destruct Hscopes as [Hsorted Hbuilt].
  destruct (Hbuilt _ _ Hfind) as (_ & Hfields & _).
  destruct (ComputeScopes_body_eq form scopes type _ _ _
              (conj Hsorted Hbuilt) HscopeType HfieldsType
              (Hfields _ HfieldsType)) as [_ ->].
  rewrite Hfind. simpl. by rewrite decide_True.
Qed.

Lemma ScopesBuilt_nil form : ScopesBuilt form [].
Proof. split; [constructor|]. intros ??. done. Qed.

Lemma DocumentsBuilt_nil form : DocumentsBuilt form [].
Proof. intros ??. done. Qed.

Lemma ScopesBuilt_types form scopes :
  ScopesBuilt form scopes → Scope.type <$> scopes.*2 = scopes.*1.
Proof.
  intros [Hsorted Hbuilt].
  assert (Forall (λ entry, Scope.type entry.2 = entry.1) scopes) as Hall.
  { apply Forall_forall. intros [k scope] Hin. simpl.
    apply elem_map_find in Hin; [|by apply sorted_keys_NoDup].
    by destruct (Hbuilt _ _ Hin). }
  clear -Hall. induction Hall as [|[k scope] scopes Hhead _ IH]; csimpl;
    [done|].
  simpl in Hhead. by rewrite Hhead, IH.
Qed.

(** The scopes that [ComputeScopes] returns are the values of the map
    that its loop has built from the empty map. *)
Lemma ComputeScopes_logged_Some form scopes logged :
  ComputeScopes_logged form = Some (scopes, logged) ↔
  ∃ built,
    ComputeScopes_loop form [] (request form) = Some (built, logged)
    ∧ scopes = built.*2.
Proof.
  unfold ComputeScopes_logged.
  destruct (ComputeScopes_loop form [] (request form)) as [[built logged']|];
    simpl; naive_solver.
Qed.

Lemma ComputeScopes_Some form scopes :
  ComputeScopes form = Some scopes ↔
  ∃ logged, ComputeScopes_logged form = Some (scopes, logged).
Proof.
  unfold ComputeScopes.
  destruct (ComputeScopes_logged form) as [[scopes' logged]|]; simpl;
    naive_solver.
Qed.

Lemma ComputeScopes_total form :
  FormResolves form → is_Some (ComputeScopes form).
Proof.
  intros Hresolves.
  destruct (ComputeScopes_loop_total form (request form) [])
    as [[built logged] Hloop]; [done|].
  exists (built.*2). apply ComputeScopes_Some. exists logged.
  apply ComputeScopes_logged_Some. eauto.
Qed.

(** C3. The scopes that the builder returns are in the order Identity,
    Address, Phone, Email and are those of the scope types that some
    requested value type maps to, whatever the order of the request; the
    builder returns when the form resolves what is requested. *)
Theorem scopes_in_enumeration_order form :
  (FormResolves form → is_Some (ComputeScopes form))
  ∧ ∀ scopes,
      ComputeScopes form = Some scopes →
      Scope.type <$> scopes =
      filter (ScopeRequested (request form))
        [Scope.Identity; Scope.Address; Scope.Phone; Scope.Email].
Proof.
  split; [apply ComputeScopes_total|].
  intros scopes (logged & (built & Hloop & ->)%ComputeScopes_logged_Some)
    %ComputeScopes_Some.
  destruct (ComputeScopes_loop_built _ _ _ _ _ (ScopesBuilt_nil form) Hloop)
    as (Hbuilt & Hkeys & _).
  rewrite (ScopesBuilt_types _ _ Hbuilt).
  rewrite (sorted_scope_types built.*1) at 1 by apply Hbuilt.
  apply list_filter_iff. intros k. rewrite Hkeys. set_solver.
Qed.

Lemma filter_fmap_fresh {A B} `{EqDecision B} (f : A → B) (l : list A) b :
  b ∉ f <$> l → filter (λ y, f y = b) l = [].
Proof.
  induction l as [|y l IH]; csimpl; [done|].
  intros [Hne Hfresh]%not_elem_of_cons.
  rewrite filter_cons_False by done. by apply IH.
Qed.

Lemma filter_NoDup_fmap {A B} `{EqDecision B} (f : A → B) (l : list A) x :
  NoDup (f <$> l) → x ∈ l → filter (λ y, f y = f x) l = [x].
Proof.
  induction l as [|y l IH]; csimpl.
  - by intros _ ?%elem_of_nil.
  - intros [Hfresh Hnodup]%NoDup_cons [->|Hin]%elem_of_cons.
    + rewrite filter_cons_True by done. f_equal.
      by apply filter_fmap_fresh.
    + rewrite filter_cons_False; [by apply IH|].
      intros Heq. apply Hfresh. rewrite Heq. by apply list_elem_of_fmap_2.
Qed.

(** The map built from a well-typed form, seen from the scope kept under
    a key. *)
Lemma ComputeScopes_loop_documents form built logged :
  FormValuesTyped form →
  ComputeScopes_loop form [] (request form) = Some (built, logged) →
  ScopesBuilt form built
  ∧ DocumentsBuilt form built
  ∧ ∀ k, document_types k built =
         first_occurrences (filter (DocumentTypeOf k) (request form)).
Proof.
  intros Htyped Hloop.
  destruct (ComputeScopes_loop_built _ _ _ _ _ (ScopesBuilt_nil form) Hloop)
    as (Hbuilt & _ & Hrun).
  destruct (Hrun Htyped (DocumentsBuilt_nil form)) as [Hdocuments Hdocs].
  done.
Qed.

Lemma elem_of_built_scopes form (built : list (Scope.Type_ * Scope.t)) scope :
  ScopesBuilt form built →
  scope ∈ built.*2 ↔ map_find (Scope.type scope) built = Some scope.
Proof.
  intros [Hsorted Hbuilt]. split.
  - intros ([k scope'] & -> & Hin)%list_elem_of_fmap. simpl.
    apply elem_map_find in Hin; [|by apply sorted_keys_NoDup].
    by destruct (Hbuilt _ _ Hin) as [-> _].
  - intros Hin%map_find_Some_elem. apply list_elem_of_fmap.
    by exists (Scope.type scope, scope).
Qed.

(** The documents of the scopes that the builder returns for a well-typed
    form are of document types of their scopes. *)
Lemma ComputeScopes_documents_belong form scopes :
  FormValuesTyped form →
  ComputeScopes form = Some scopes →
  Forall ScopeDocumentsBelong scopes.
Proof.
  intros Htyped (logged & (built & Hloop & ->)%ComputeScopes_logged_Some)
    %ComputeScopes_Some.
  destruct (ComputeScopes_loop_documents _ _ _ Htyped Hloop)
    as (Hbuilt & Hdocuments & _).
  apply Forall_forall. intros scope Hin%(elem_of_built_scopes form); [|done].
  destruct (Hdocuments _ _ Hin) as [Hall _].
  unfold ScopeDocumentsBelong. eapply Forall_impl; [done|]. naive_solver.
Qed.

(** The loop reads the values and the selfie flag of the form, and the
    request it is given. *)
Lemma ComputeScopes_loop_form form request' request : ∀ scopes,
  ComputeScopes_loop
    (mkForm (values form) request' (identitySelfieRequired form))
    scopes request
  = ComputeScopes_loop form scopes request.
Proof.
  induction request as [|type request IH]; intros scopes; simpl; [done|].
  change (ComputeScopes_body (mkForm _ _ _) scopes type)
    with (ComputeScopes_body form scopes type).
  destruct (ComputeScopes_body form scopes type) as [[scopes1 logged1]|];
    simpl; [|done].
  by rewrite IH.
Qed.

(** C2. When a document type is requested twice, the builder returns a
    single scope of its scope type, and that scope has exactly one
    document of the type: the form's value for it, at the place of the
    first request among the scope's requested document types. The second
    request is logged and changes nothing: without it the builder returns
    the same scopes. *)
Theorem duplicate_document_request form l1 l2 l3 type scopeType :
  FormValuesTyped form →
  FormResolves form →
  request form = (l1 ++ type :: l2 ++ type :: l3)%list →
  DocumentTypeOf scopeType type →
  ∃ scopes logged scope document,
    ComputeScopes_logged form = Some (scopes, logged)
    ∧ type ∈ logged
    ∧ ComputeScopes
        (mkForm (values form) (l1 ++ type :: l2 ++ l3)
           (identitySelfieRequired form))
      = Some scopes
    ∧ filter (λ scope, Scope.type scope = scopeType) scopes = [scope]
    ∧ values form !! type = Some document
    ∧ filter (λ document, Value.type document = type)
        (Scope.documents scope) = [document]
    ∧ Value.type <$> Scope.documents scope =
      first_occurrences (filter (DocumentTypeOf scopeType) (request form)).
Proof.
  intros Htyped Hresolves Hrequest Hbelongs.
  destruct (ComputeScopes_loop_total form (request form) [])
    as [[built logged] Hloop]; [done|].
  destruct (ComputeScopes_loop_documents _ _ _ Htyped Hloop)
    as (Hbuilt & Hdocuments & Hdocs).
  (* the scope of the type *)
  assert (type ∈ document_types scopeType built) as Hin.
  { rewrite Hdocs. apply elem_of_first_occurrences_from.
    split; [|apply not_elem_of_nil].
    apply list_elem_of_filter. split; [done|]. rewrite Hrequest. set_solver. }
  pose proof Hin as Hin'. unfold document_types in Hin'.
  destruct (map_find scopeType built) as [scope|] eqn:Hscope; simpl in Hin';
    [|by apply elem_of_nil in Hin'].
  apply list_elem_of_fmap in Hin' as (document & Htype & Hdocument).
  destruct (Hdocuments _ _ Hscope) as [Hall Hnodup].
  pose proof Hall as Hvalue.
  eapply Forall_forall in Hvalue as [Hvalue _]; [|done].
  (* the run up to the second request *)
  assert (request form = ((l1 ++ type :: l2) ++ type :: l3)%list) as Hsplit
    by by rewrite Hrequest, <-app_assoc.
  rewrite Hsplit, ComputeScopes_loop_app in Hloop.
  destruct (ComputeScopes_loop form [] (l1 ++ type :: l2))
    as [[built1 logged1]|] eqn:Hloop1; simpl in Hloop; [|done].
  destruct (ComputeScopes_loop_built _ _ _ _ _ (ScopesBuilt_nil form) Hloop1)
    as (Hbuilt1 & _ & Hrun1).
  destruct (Hrun1 Htyped (DocumentsBuilt_nil form)) as [_ Hdocs1].
  rewrite (ComputeScopes_body_duplicate form built1 type scopeType)
    in Hloop; [|done|apply Hbelongs|].
  2: { rewrite Hdocs1. apply elem_of_first_occurrences_from.
       split; [|apply not_elem_of_nil].
       apply list_elem_of_filter. split; [done|]. set_solver. }
  simpl in Hloop.
  destruct (ComputeScopes_loop form built1 l3) as [[built3 logged3]|]
    eqn:Hloop3; simpl in Hloop; [|done].
  injection Hloop as <- <-. rename built3 into built.
  exists (built.*2), (logged1 ++ type :: logged3)%list, scope, document.
  split_and!.
  - apply ComputeScopes_logged_Some. exists built. split; [|done].
    by rewrite Hsplit, ComputeScopes_loop_app, Hloop1; simpl;
      rewrite (ComputeScopes_body_duplicate form built1 _ scopeType);
      [simpl; rewrite Hloop3| |apply Hbelongs|rewrite Hdocs1;
        apply elem_of_first_occurrences_from;
        split; [apply list_elem_of_filter; split; [done|set_solver]
               |apply not_elem_of_nil]].
  - set_solver.
  - apply ComputeScopes_Some. exists (logged1 ++ logged3)%list.
    apply ComputeScopes_logged_Some. exists built. split; [|done]. simpl.
    replace (l1 ++ type :: l2 ++ l3)%list
      with ((l1 ++ type :: l2) ++ l3)%list by by rewrite <-app_assoc.
    by rewrite ComputeScopes_loop_form, ComputeScopes_loop_app, Hloop1;
      simpl; rewrite Hloop3.
  - destruct Hbuilt as [Hsorted Hkept].
    destruct (Hkept _ _ Hscope) as [Hscopetype _].
    rewrite <-Hscopetype. apply filter_NoDup_fmap.
    + rewrite (ScopesBuilt_types form) by done.
      by apply sorted_keys_NoDup.
    + apply (elem_of_built_scopes form); [done|]. by rewrite Hscopetype.
  - by rewrite Htype.
  - rewrite Htype. by apply filter_NoDup_fmap.
  - rewrite <-Hdocs. unfold document_types. by rewrite Hscope.
Qed.

(** ** Rows of built scopes *)

Section RowFacts.

Variable lang : LangKey → string.
Variable GetDocumentScheme : Scope.Type_ → EditDocumentScheme.t.
Variable GetContactScheme : Scope.Type_ → EditContactScheme.t.


(** With at most one document no label is pushed, and the formatter
    returns. *)
Lemma ReadyString_single scope :
  (length (Scope.documents scope) ≤ 1)%nat →
  is_Some
    (ComputeScopeRowReadyString lang GetDocumentScheme GetContactScheme scope).
Proof.
  intros Hlength.
  destruct (decide (Scope.type scope = Scope.Identity
                    ∨ Scope.type scope = Scope.Address)) as [Htype|Htype].
  - rewrite (ReadyString_documents _ _ _ scope Htype []); [eauto|].
    destruct (RepresentativeDocument scope); [|done].
    by rewrite bool_decide_eq_false_2 by lia.
  - rewrite ReadyString_contact; [eauto|]. destruct (Scope.type scope); tauto.
Qed.

(** C9. For an Identity scope with exactly one document, the presenter
    returns the title and subtitle of a Passport, an Identity Card or a
    Driver License according to the document's type, with the ready
    string of the scope. In the scopes that the builder returns for a
    form keeping each value under its own type, the documents of an
    Identity scope are of these three types only, so with exactly one
    document the presenter returns a row. *)
Theorem identity_single_document_row :
  (∀ scope document,
     Scope.type scope = Scope.Identity →
     Scope.documents scope = [document] →
     ∃ ready,
       ComputeScopeRowReadyString lang GetDocumentScheme GetContactScheme scope
       = Some ready
       ∧ (Value.type document = Value.Passport →
          ComputeScopeRow lang GetDocumentScheme GetContactScheme scope =
          Some (mkScopeRow (lang lng_passport_identity_passport)
                  (lang lng_passport_identity_passport_upload) ready))
       ∧ (Value.type document = Value.IdentityCard →
          ComputeScopeRow lang GetDocumentScheme GetContactScheme scope =
          Some (mkScopeRow (lang lng_passport_identity_card)
                  (lang lng_passport_identity_card_upload) ready))
       ∧ (Value.type document = Value.DriverLicense →
          ComputeScopeRow lang GetDocumentScheme GetContactScheme scope =
          Some (mkScopeRow (lang lng_passport_identity_license)
                  (lang lng_passport_identity_license_upload) ready)))
  ∧ (∀ form scopes scope,
       FormValuesTyped form →
       ComputeScopes form = Some scopes →
       scope ∈ scopes →
       Scope.type scope = Scope.Identity →
       (∀ document,
          document ∈ Scope.documents scope →
          Value.type document = Value.Passport
          ∨ Value.type document = Value.IdentityCard
          ∨ Value.type document = Value.DriverLicense)
       ∧ (length (Scope.documents scope) = 1 →
          is_Some
            (ComputeScopeRow lang GetDocumentScheme GetContactScheme scope))).
Proof.
  split.
  - intros scope document Htype Hdocuments.
    destruct (ReadyString_single scope) as [ready Hready].
    { by rewrite Hdocuments. }
    exists ready. split; [done|].
    unfold ComputeScopeRow, Row. rewrite Htype, Hdocuments, Hready.
    split_and!; by intros ->.
  - intros form scopes scope Htyped Hscopes Hin Htype.
    pose proof (ComputeScopes_documents_belong _ _ Htyped Hscopes) as Hall.
    eapply Forall_forall in Hall; [|done].
    assert (∀ document,
              document ∈ Scope.documents scope →
              Value.type document = Value.Passport
              ∨ Value.type document = Value.IdentityCard
              ∨ Value.type document = Value.DriverLicense) as Hthree.
    { intros document Hdocument.
      eapply Forall_forall in Hall; [|done].
      rewrite Htype in Hall. apply DocumentTypeOf_cases in Hall.
      naive_solver. }
    split; [done|]. intros Hlength.
    destruct (ReadyString_single scope) as [ready Hready]; [lia|].
    unfold ComputeScopeRow, Row. rewrite Htype, Hready.
    destruct (Scope.documents scope) as [|document [|??]] eqn:Hdocuments;
      try done.
    destruct (Hthree document) as [-> | [-> | ->]]; [set_solver|..];
      simpl; eauto.
Qed.

End RowFacts.

(** ** Formatters of the scheme rows *)

(** A row read from the primary fields pushes its value through the
    formatter of the row. *)
Lemma RowString_fields fields document row value :
  EditDocumentScheme.valueClass row = EditDocumentScheme.Fields →
  fields !! EditDocumentScheme.key row = Some value →
  rejected row value = false →
  RowString fields document row =
  Some match EditDocumentScheme.format row with
       | Some format => format value
       | None => value
       end.
Proof. unfold RowString. by intros -> -> ->. Qed.

(** A row read from the document pushes its value as it is, with or
    without a formatter in the row. *)
Lemma RowString_scans fields document row value :
  EditDocumentScheme.valueClass row = EditDocumentScheme.Scans →
  Value.data_parsed_fields document !! EditDocumentScheme.key row
    = Some value →
  rejected row value = false →
  RowString fields (Some document) row = Some value.
Proof. unfold RowString. by intros -> -> ->. Qed.

(** C1. The formatter of a row is applied to values read from the primary
    fields only. On the sample Identity scope, whose Passport holds the
    document number "AB123", a scheme whose document row formats numbers
    as "No. AB123" yields the summary "Ada, AB123": the value of the
    document row is pushed without its formatter. *)
Theorem document_row_not_formatted :
  let row :=
    EditDocumentScheme.mkRow EditDocumentScheme.Scans "document_no"
      (Some Samples.NotEmptyValidate) (Some Samples.NumberFormat) in
  row ∈ EditDocumentScheme.rows
          (Samples.GetNumberedDocumentScheme Scope.Identity)
  ∧ RepresentativeDocument (Samples.identityScope false)
    = Some Samples.passport
  ∧ Value.data_parsed_fields Samples.passport !! "document_no"
    = Some "AB123"
  ∧ Samples.NumberFormat "AB123" = "No. AB123"
  ∧ RowString
      (Value.data_parsed_fields (Scope.fields (Samples.identityScope false)))
      (Some Samples.passport) row
    = Some "AB123"
  ∧ ComputeScopeRowReadyString Samples.lang
      Samples.GetNumberedDocumentScheme Samples.GetContactScheme
      (Samples.identityScope false)
    = Some "Ada, AB123".
Proof.
  split_and!; try by vm_compute.
  unfold Samples.GetNumberedDocumentScheme. simpl. set_solver.
Qed.

(** ** The properties on the sample inputs *)

Lemma Samples_form_typed : FormValuesTyped Samples.form.
Proof. intros [] value; vm_compute; by intros [= <-]. Qed.

Lemma Samples_form_resolves : FormResolves Samples.form.
Proof.
  intros type Hin. split.
  - unfold Samples.form in Hin. simpl in Hin.
    repeat (apply elem_of_cons in Hin as [->|Hin]);
      [..|by apply elem_of_nil in Hin]; vm_compute; eauto.
  - intros scopeType fieldsType.
    rewrite ScopeTypeForValueType_eq. intros [= <-].
    rewrite FieldsTypeForScopeType_eq. intros [= <-].
    unfold Samples.form in Hin. simpl in Hin.
    repeat (apply elem_of_cons in Hin as [->|Hin]);
      [..|by apply elem_of_nil in Hin]; vm_compute; eauto.
Qed.

Lemma duplicate_document_request_witness :
  ∃ scopes logged scope document,
    ComputeScopes_logged Samples.form = Some (scopes, logged)
    ∧ Value.Passport ∈ logged
    ∧ ComputeScopes
        (mkForm (values Samples.form)
           ([Value.Phone; Value.UtilityBill] ++ Value.Passport
              :: [Value.IdentityCard] ++ [Value.PersonalDetails])
           (identitySelfieRequired Samples.form))
      = Some scopes
    ∧ filter (λ scope, Scope.type scope = Scope.Identity) scopes = [scope]
    ∧ values Samples.form !! Value.Passport = Some document
    ∧ filter (λ document, Value.type document = Value.Passport)
        (Scope.documents scope) = [document]
    ∧ Value.type <$> Scope.documents scope =
      first_occurrences
        (filter (DocumentTypeOf Scope.Identity) (request Samples.form)).
Proof.
  apply (duplicate_document_request Samples.form
           [Value.Phone; Value.UtilityBill] [Value.IdentityCard]
           [Value.PersonalDetails] Value.Passport Scope.Identity).
  - intros [] value; vm_compute; by intros [= <-].
  - apply Samples_form_resolves.
  - reflexivity.
  - split; vm_compute; congruence.
Defined.

Lemma scopes_in_enumeration_order_witness :
  ∃ scopes,
    ComputeScopes Samples.form = Some scopes
    ∧ Scope.type <$> scopes = [Scope.Identity; Scope.Address; Scope.Phone].
Proof.
  eexists. split; [vm_compute; reflexivity|].
  rewrite (proj2 (scopes_in_enumeration_order Samples.form) _
             ltac:(vm_compute; reflexivity)).
  vm_compute. reflexivity.
Defined.


Lemma missing_selfie_empty_summary_witness :
  ComputeScopeRowReadyString Samples.lang Samples.GetDocumentScheme
    Samples.GetContactScheme (Samples.identityScope true)
  = Some "".
Proof.
  apply (missing_selfie_empty_summary Samples.lang Samples.GetDocumentScheme
           Samples.GetContactScheme (Samples.identityScope true)
           Samples.passport).
  - reflexivity.
  - reflexivity.
  - repeat constructor; vm_compute; congruence.
  - vm_compute. reflexivity.
  - reflexivity.
Defined.

Lemma contact_summary_witness :
  ComputeScopeRowReadyString Samples.lang Samples.GetDocumentScheme
    Samples.GetContactScheme Samples.phoneScope
  = Some "+1 555 0100".
Proof.
  apply (contact_summary Samples.lang Samples.GetDocumentScheme
           Samples.GetContactScheme Samples.phoneScope
           (or_introl eq_refl)).
  - vm_compute. reflexivity.
  - reflexivity.
Defined.

Lemma representative_has_scans_witness :
  empty_ (Value.scans Samples.passport) = false
  ∧ DocumentNotReady (Samples.identityScope true)
      (RepresentativeDocument (Samples.identityScope true))
    = (Scope.selfieRequired (Samples.identityScope true)
       && negb (bool_decide (is_Some (Value.selfie Samples.passport))))
  ∧ (DocumentNotReady (Samples.identityScope true)
       (RepresentativeDocument (Samples.identityScope true)) = true →
     Scope.selfieRequired (Samples.identityScope true) = true
     ∧ Value.selfie Samples.passport = None).
Proof.
  apply (representative_has_scans (Samples.identityScope true)
           Samples.passport).
  vm_compute. reflexivity.
Defined.

Lemma identity_single_document_row_witness :
  ComputeScopeRow Samples.lang Samples.GetDocumentScheme
    Samples.GetContactScheme (Samples.identityScope true)
  = Some (mkScopeRow "Passport" "Upload a scan of your passport" "").
Proof.
  destruct (proj1 (identity_single_document_row Samples.lang
                     Samples.GetDocumentScheme Samples.GetContactScheme)
              (Samples.identityScope true) Samples.passport
              eq_refl eq_refl) as (ready & Hready & Hpassport & _).
  rewrite (Hpassport eq_refl).
  vm_compute in Hready. injection Hready as <-. reflexivity.
Defined.

Lemma representative_document_label_witness :
  RepresentativeDocument Samples.addressScope = Some Samples.utilityBill
  ∧ ComputeScopeRowReadyString Samples.lang Samples.GetDocumentScheme
      Samples.GetContactScheme Samples.addressScope
    = Some (String.concat ", "
              ["Utility Bill"; "Main St 1"; "Delft"; "Netherlands"]).
Proof.
  split; [reflexivity|].
  pose proof (representative_document_label Samples.lang
                Samples.GetDocumentScheme Samples.GetContactScheme
                Samples.addressScope (or_intror eq_refl)) as Hlabel.
  change (RepresentativeDocument Samples.addressScope)
    with (Some Samples.utilityBill) in Hlabel.
  destruct Hlabel as [_ Hsummary].
  { repeat constructor; vm_compute; congruence. }
  destruct Hsummary as [_ Hsummary].
  { simpl. lia. }
  destruct (Hsummary lng_passport_address_bill) as [Hjoined _].
  { change (Value.type Samples.utilityBill) with Value.UtilityBill.
    set_solver. }
  apply (Hjoined ["Main St 1"; "Delft"; "Netherlands"]).
  - reflexivity.
  - vm_compute. reflexivity.
Defined.

(** Where the summary is cut short it does not begin with the label,
    against C8 as first stated: in the Address scope with a Utility Bill that has scans and a Rental
    Agreement that has none, whose fields lack the city, a representative
    exists among two documents, yet the summary is empty and does not
    begin with the Utility Bill label. *)
Lemma representative_label_cut_short :
  Scope.type MoreSamples.incompleteAddressScope = Scope.Address
  ∧ ScopeDocumentsBelong MoreSamples.incompleteAddressScope
  ∧ RepresentativeDocument MoreSamples.incompleteAddressScope
    = Some Samples.utilityBill
  ∧ 1 < length (Scope.documents MoreSamples.incompleteAddressScope)
  ∧ ComputeScopeRowReadyString Samples.lang Samples.GetDocumentScheme
      Samples.GetContactScheme MoreSamples.incompleteAddressScope
    = Some ""
  ∧ ¬ ∃ pushed,
        ComputeScopeRowReadyString Samples.lang Samples.GetDocumentScheme
          Samples.GetContactScheme MoreSamples.incompleteAddressScope
        = Some (String.concat ", "
                  (Samples.lang lng_passport_address_bill :: pushed)).
Proof.
  split_and!.
  - reflexivity.
  - repeat constructor; vm_compute; congruence.
  - reflexivity.
  - simpl. lia.
  - vm_compute. reflexivity.
  - intros [pushed Hjoined].
    assert (ComputeScopeRowReadyString Samples.lang
              Samples.GetDocumentScheme Samples.GetContactScheme
              MoreSamples.incompleteAddressScope = Some "") as Hempty
      by (vm_compute; reflexivity).
    rewrite Hempty in Hjoined. by destruct pushed.
Qed.

(** * Further properties *)

(** ** What the builder returns *)

Lemma IsDocumentType_DocumentTypeOf type scopeType :
  ScopeTypeForValueType type = Some scopeType →
  IsDocumentType type ↔ DocumentTypeOf scopeType type.
Proof.
  intros HscopeType. unfold IsDocumentType, DocumentTypeOf.
  rewrite HscopeType. simpl. naive_solver.
Qed.

(** A run of the loop has resolved every type of its request and the
    fields type of its scope. *)
Lemma ComputeScopes_loop_resolved form request : ∀ scopes scopes' logged,
  FormValuesTyped form →
  ScopesBuilt form scopes →
  DocumentsBuilt form scopes →
  ComputeScopes_loop form scopes request = Some (scopes', logged) →
  ∀ type, type ∈ request →
    is_Some (values form !! type) ∧
    ∀ scopeType fieldsType,
      ScopeTypeForValueType type = Some scopeType →
      FieldsTypeForScopeType scopeType = Some fieldsType →
      is_Some (values form !! fieldsType).
Proof.
  induction request as [|head request IH];
    intros scopes scopes' logged Htyped Hscopes Hdocuments Hloop type Hin.
  { by apply elem_of_nil in Hin. }
  simpl in Hloop.
  destruct (ComputeScopes_body form scopes head)
    as [[scopes1 logged1]|] eqn:Hbody; simpl in Hloop; [|done].
  destruct (ComputeScopes_loop form scopes1 request)
    as [[scopes2 logged2]|] eqn:Hrest; [|done].
  destruct (ComputeScopes_body_step _ _ _ _ _ Hscopes Hbody)
    as (Hscopes1 & _ & Hstep).
  destruct (Hstep Htyped Hdocuments) as [Hdocuments1 Hdocs1].
  apply elem_of_cons in Hin as [->|Hin]; [|by eapply IH].
  assert (∀ scopeType fieldsType,
            ScopeTypeForValueType head = Some scopeType →
            FieldsTypeForScopeType scopeType = Some fieldsType →
            is_Some (values form !! fieldsType)) as Hfields.
  { intros scopeType fieldsType HscopeType HfieldsType.
    eapply ComputeScopes_body_primary; [done..|]. rewrite Hbody. eauto. }
  split; [|done].
  destruct (ScopeTypeForValueType head) as [scopeType|] eqn:HscopeType.
  2: { by rewrite ScopeTypeForValueType_eq in HscopeType. }
  destruct (FieldsTypeForScopeType scopeType) as [fieldsType|]
    eqn:HfieldsType.
  2: { by rewrite FieldsTypeForScopeType_eq in HfieldsType. }
  destruct (decide (head = fieldsType)) as [->|Hne]; [by eapply Hfields|].
  assert (DocumentTypeOf scopeType head) as Hbelongs.
  { split; [done|]. rewrite HfieldsType. congruence. }
  assert (head ∈ document_types scopeType scopes1) as Hpushed.
  { rewrite Hdocs1.
    destruct (decide (head ∈ document_types scopeType scopes)).
    - set_solver.
    - rewrite decide_True by done. set_solver. }
  unfold document_types in Hpushed.
  destruct (map_find scopeType scopes1) as [scope|] eqn:Hscope;
    simpl in Hpushed; [|by apply elem_of_nil in Hpushed].
  apply list_elem_of_fmap in Hpushed as (document & -> & Hdocument).
  destruct (Hdocuments1 _ _ Hscope) as [Hall _].
  eapply Forall_forall in Hall as [Hvalue _]; [|done]. eauto.
Qed.

(** X1. On a form that keeps each value under its own type, the builder
    returns exactly when the form resolves every requested type and the
    fields type of its scope; otherwise an assertion of [findValue]
    fails. *)
Theorem ComputeScopes_returns_iff_resolves form :
  FormValuesTyped form →
  is_Some (ComputeScopes form) ↔ FormResolves form.
Proof.
  intros Htyped. split; [|apply ComputeScopes_total].
  intros [scopes (logged & (built & Hloop & ->)%ComputeScopes_logged_Some)
                   %ComputeScopes_Some].
  intros type Hin.
  by apply (ComputeScopes_loop_resolved form (request form) [] built logged
              Htyped (ScopesBuilt_nil form) (DocumentsBuilt_nil form) Hloop).
Qed.

(** X2. The scopes that the builder returns have pairwise distinct
    types; each holds as fields the form's value of the fields type of its
    scope type, and requires a selfie exactly when it is the Identity
    scope and the form requires one. *)
Theorem built_scopes_anchored form scopes :
  ComputeScopes form = Some scopes →
  NoDup (Scope.type <$> scopes)
  ∧ Forall (λ scope,
              (FieldsTypeForScopeType (Scope.type scope)
                 ≫= λ fieldsType, values form !! fieldsType)
              = Some (Scope.fields scope)
              ∧ Scope.selfieRequired scope
                = (bool_decide (Scope.type scope = Scope.Identity)
                   && identitySelfieRequired form))
      scopes.
Proof.
  intros (logged & (built & Hloop & ->)%ComputeScopes_logged_Some)
    %ComputeScopes_Some.
  destruct (ComputeScopes_loop_built _ _ _ _ _ (ScopesBuilt_nil form) Hloop)
    as (Hbuilt & _ & _).
  split.
  - rewrite (ScopesBuilt_types form) by done.
    apply sorted_keys_NoDup, Hbuilt.
  - apply Forall_forall.
    intros scope Hin%(elem_of_built_scopes form); [|done].
    destruct Hbuilt as [_ Hkept].
    destruct (Hkept _ _ Hin) as (_ & Hfields & Hselfie).
    split; [|done].
    rewrite FieldsTypeForScopeType_eq. simpl. apply Hfields.
    by rewrite FieldsTypeForScopeType_eq.
Qed.

(** X3. On a form that keeps each value under its own type, the documents
    of a returned scope are the form's values of the requested document
    types of its scope type, each once, in the order of their first
    request; a Phone or Email scope has no documents. *)
Theorem built_scopes_documents form scopes :
  FormValuesTyped form →
  ComputeScopes form = Some scopes →
  Forall (λ scope,
            Value.type <$> Scope.documents scope
            = first_occurrences
                (filter (DocumentTypeOf (Scope.type scope)) (request form))
            ∧ NoDup (Value.type <$> Scope.documents scope)
            ∧ Forall (λ document,
                        values form !! Value.type document = Some document)
                (Scope.documents scope)
            ∧ (Scope.type scope = Scope.Phone
               ∨ Scope.type scope = Scope.Email →
               Scope.documents scope = []))
    scopes.
Proof.
  intros Htyped (logged & (built & Hloop & ->)%ComputeScopes_logged_Some)
    %ComputeScopes_Some.
  destruct (ComputeScopes_loop_documents _ _ _ Htyped Hloop)
    as (Hbuilt & Hdocuments & Hdocs).
  apply Forall_forall. intros scope Hin%(elem_of_built_scopes form); [|done].
  destruct (Hdocuments _ _ Hin) as [Hall Hnodup].
  split_and!; [|done| |].
  - rewrite <-Hdocs. unfold document_types. by rewrite Hin.
  - eapply Forall_impl; [done|]. naive_solver.
  - intros Hcontact.
    destruct (Scope.documents scope) as [|document rest]; [done|].
    apply Forall_cons in Hall as [[_ Hbelongs] _].
    apply DocumentTypeOf_cases in Hbelongs.
    destruct Hcontact as [Hc|Hc], Hbelongs as [[Ht _]|[Ht _]]; congruence.
Qed.

(** The documents of a built scope are not of its fields type. *)
Lemma fields_type_not_document form scopes scopeType scope fieldsType :
  DocumentsBuilt form scopes →
  map_find scopeType scopes = Some scope →
  FieldsTypeForScopeType scopeType = Some fieldsType →
  fieldsType ∉ Value.type <$> Scope.documents scope.
Proof.
  intros Hdocuments Hscope HfieldsType
    (document & -> & Hin)%list_elem_of_fmap.
  destruct (Hdocuments _ _ Hscope) as [Hall _].
  eapply Forall_forall in Hall as [_ [_ Hne]]; [|done].
  by rewrite HfieldsType in Hne.
Qed.

(** What one iteration logs: the requested type, when its scope has it
    as a document. *)
Lemma ComputeScopes_body_logged form scopes type scopeType scopes' logged :
  ScopesBuilt form scopes →
  ScopeTypeForValueType type = Some scopeType →
  ComputeScopes_body form scopes type = Some (scopes', logged) →
  logged = if decide (type ∈ document_types scopeType scopes)
           then [type] else [].
Proof.
  intros Hscopes HscopeType Hbody.
  destruct (FieldsTypeForScopeType scopeType) as [fieldsType|]
    eqn:HfieldsType.
  2: { by rewrite FieldsTypeForScopeType_eq in HfieldsType. }
  destruct (ComputeScopes_body_primary form scopes type _ _
              HscopeType HfieldsType) as [primary Hprimary].
  { rewrite Hbody. eauto. }
  destruct (ComputeScopes_body_eq form scopes type _ _ _
              Hscopes HscopeType HfieldsType Hprimary) as [Hfind Heq].
  destruct (emplaced_built form scopes _ _ _ Hscopes HfieldsType Hprimary)
    as (_ & _ & _ & Hdocs).
  rewrite Heq in Hbody. clear Heq.
  assert (document_types scopeType scopes
          = Value.type <$> Scope.documents
              (default (Scope.mk scopeType primary []
                          (bool_decide (scopeType = Scope.Identity)
                           && identitySelfieRequired form))
                 (map_find scopeType scopes))) as ->.
  { rewrite <-Hdocs. unfold document_types. by rewrite Hfind. }
  destruct (decide (type ∈ _)); [by simplify_eq|].
  destruct (decide (type = fieldsType)); [by simplify_eq|].
  destruct (values form !! type); by simplify_eq/=.
Qed.

(** A request of the fields type of a scope that is kept changes nothing
    and logs nothing. *)
Lemma ComputeScopes_body_fields form scopes type scopeType scope :
  ScopesBuilt form scopes →
  DocumentsBuilt form scopes →
  ScopeTypeForValueType type = Some scopeType →
  FieldsTypeForScopeType scopeType = Some type →
  map_find scopeType scopes = Some scope →
  ComputeScopes_body form scopes type = Some (scopes, []).
Proof.
  intros Hscopes Hdocuments HscopeType HfieldsType Hscope.
  destruct Hscopes as [Hsorted Hbuilt].
  destruct (Hbuilt _ _ Hscope) as (_ & Hfields & _).
  destruct (ComputeScopes_body_eq form scopes type _ _ _
              (conj Hsorted Hbuilt) HscopeType HfieldsType
              (Hfields _ HfieldsType)) as [_ ->].
  rewrite Hscope. simpl.
  rewrite decide_False by by eapply fields_type_not_document.
  by rewrite decide_True.
Qed.

(** X4. A fields type requested a second time is passed over in silence:
    on a form that keeps each value under its own type, the builder
    returns the same scopes and logs the same types as without the second
    request, and aborts in the same cases. *)
Theorem duplicate_fields_request_silent form l1 l2 l3 type scopeType :
  FormValuesTyped form →
  request form = (l1 ++ type :: l2 ++ type :: l3)%list →
  ScopeTypeForValueType type = Some scopeType →
  FieldsTypeForScopeType scopeType = Some type →
  ComputeScopes_logged form =
  ComputeScopes_logged
    (mkForm (values form) (l1 ++ type :: l2 ++ l3)
       (identitySelfieRequired form)).
Proof.
  intros Htyped Hrequest HscopeType HfieldsType.
  unfold ComputeScopes_logged. simpl.
  rewrite ComputeScopes_loop_form, Hrequest.
  replace (l1 ++ type :: l2 ++ type :: l3)%list
    with ((l1 ++ type :: l2) ++ type :: l3)%list by by rewrite <-app_assoc.
  replace (l1 ++ type :: l2 ++ l3)%list
    with ((l1 ++ type :: l2) ++ l3)%list by by rewrite <-app_assoc.
  rewrite (ComputeScopes_loop_app form [] (l1 ++ type :: l2) (type :: l3)).
  rewrite (ComputeScopes_loop_app form [] (l1 ++ type :: l2) l3).
  destruct (ComputeScopes_loop form [] (l1 ++ type :: l2))
    as [[built1 logged1]|] eqn:Hloop1; simpl; [|done].
  destruct (ComputeScopes_loop_built _ _ _ _ _ (ScopesBuilt_nil form) Hloop1)
    as (Hbuilt1 & Hkeys1 & Hrun1).
  destruct (Hrun1 Htyped (DocumentsBuilt_nil form)) as [Hdocuments1 _].
  destruct (map_find scopeType built1) as [scope|] eqn:Hscope.
  2: { apply map_find_None in Hscope. destruct Hscope. apply Hkeys1.
       right. unfold ScopeRequested. apply Exists_exists.
       exists type. split; [set_solver|done]. }
  rewrite (ComputeScopes_body_fields form built1 type scopeType scope)
    by done.
  simpl. by destruct (ComputeScopes_loop form built1 l3) as [[??]|].
Qed.

(** The types logged by a run of the loop, from scopes whose document
    types are those in [seen]. *)
Lemma ComputeScopes_loop_logged form request :
  ∀ scopes seen scopes' logged,
  FormValuesTyped form →
  ScopesBuilt form scopes →
  DocumentsBuilt form scopes →
  (∀ type scopeType,
     ScopeTypeForValueType type = Some scopeType →
     type ∈ seen ↔ type ∈ document_types scopeType scopes) →
  ComputeScopes_loop form scopes request = Some (scopes', logged) →
  logged = later_occurrences_from seen (filter IsDocumentType request).
Proof.
  induction request as [|type request IH];
    intros scopes seen scopes' logged Htyped Hscopes Hdocuments Hseen Hloop;
    simpl in Hloop.
  { by simplify_eq. }
  destruct (ComputeScopes_body form scopes type)
    as [[scopes1 logged1]|] eqn:Hbody; simpl in Hloop; [|done].
  destruct (ComputeScopes_loop form scopes1 request)
    as [[scopes2 logged2]|] eqn:Hrest; simpl in Hloop; [|done].
  injection Hloop as <- <-.
  destruct (ComputeScopes_body_step _ _ _ _ _ Hscopes Hbody)
    as (Hscopes1 & _ & Hstep).
  destruct (Hstep Htyped Hdocuments) as [Hdocuments1 Hdocs1].
  destruct (ScopeTypeForValueType type) as [scopeType|] eqn:HscopeType.
  2: { by rewrite ScopeTypeForValueType_eq in HscopeType. }
  rewrite (ComputeScopes_body_logged _ _ _ _ _ _ Hscopes HscopeType Hbody).
  rewrite filter_cons.
  destruct (decide (type ∈ document_types scopeType scopes)) as [Hin|Hout].
  - (* requested before: logged *)
    assert (IsDocumentType type) as Hdoc.
    { apply (IsDocumentType_DocumentTypeOf _ scopeType); [done|].
      unfold document_types in Hin.
      destruct (map_find scopeType scopes) as [scope|] eqn:Hscope;
        simpl in Hin; [|by apply elem_of_nil in Hin].
      apply list_elem_of_fmap in Hin as (document & -> & Hin).
      destruct (Hdocuments _ _ Hscope) as [Hall _].
      by eapply Forall_forall in Hall as [_ ?]. }
    rewrite decide_True by done. simpl.
    rewrite decide_True by by eapply Hseen.
    f_equal. eapply IH; [done..| |done].
    intros type' scopeType' HscopeType'. rewrite Hdocs1, Hseen by done.
    rewrite decide_False, app_nil_r; [done|].
    intros [[Hk _] Hnot]. rewrite HscopeType in Hk. by simplify_eq.
  - destruct (decide (IsDocumentType type)) as [Hdoc|Hfields]; simpl.
    + (* a new document *)
      rewrite decide_False by by rewrite Hseen.
      eapply IH; [done..| |done].
      intros type' scopeType' HscopeType'. rewrite Hdocs1.
      rewrite elem_of_cons, elem_of_app, (Hseen type' scopeType') by done.
      destruct (decide (type' = type)) as [->|Hne].
      * rewrite HscopeType in HscopeType'. simplify_eq.
        rewrite decide_True; [set_solver|].
        split; [|done]. by apply IsDocumentType_DocumentTypeOf.
      * case_decide; set_solver.
    + (* the type of the fields *)
      eapply IH; [done..| |done].
      intros type' scopeType' HscopeType'. rewrite Hdocs1, Hseen by done.
      rewrite decide_False, app_nil_r; [done|].
      intros [Hk _]. apply Hfields.
      apply (IsDocumentType_DocumentTypeOf _ scopeType); [done|].
      destruct Hk as [Hk ?]. rewrite HscopeType in Hk. by simplify_eq.
Qed.

(** X5. On a form that keeps each value under its own type, the builder
    logs exactly the repeated requests of document types, in the order of
    the request: a requested type is logged when it is not the fields type
    of its scope and was requested before. *)
Theorem logged_repeated_documents form scopes logged :
  FormValuesTyped form →
  ComputeScopes_logged form = Some (scopes, logged) →
  logged = later_occurrences_from [] (filter IsDocumentType (request form)).
Proof.
  intros Htyped (built & Hloop & ->)%ComputeScopes_logged_Some.
  eapply ComputeScopes_loop_logged;
    [done|apply ScopesBuilt_nil|apply DocumentsBuilt_nil| |done].
  intros type scopeType _. unfold document_types. simpl. set_solver.
Qed.

(** ** Aborts and completeness of the summary and the row *)

(** X6. The switch that chooses the label of a document has a case
    exactly for the value types that are not the fields type of their
    scope. *)
Theorem DocumentLabel_document_types type :
  is_Some (DocumentLabel type) ↔ IsDocumentType type.
Proof.
  unfold IsDocumentType. rewrite ScopeTypeForValueType_eq. simpl.
  rewrite FieldsTypeForScopeType_eq.
  destruct type; simpl; split; (try by eauto); try congruence;
    by intros [? [=]].
Qed.

Section AbortFacts.

Variable lang : LangKey → string.
Variable GetDocumentScheme : Scope.Type_ → EditDocumentScheme.t.
Variable GetContactScheme : Scope.Type_ → EditContactScheme.t.

(** X7. The summary formatter aborts in one case only: an Identity or
    Address scope with more than one document whose first document with
    scans is of a type without a label. *)
Theorem ReadyString_aborts_iff scope :
  ComputeScopeRowReadyString lang GetDocumentScheme GetContactScheme scope
  = None ↔
  (Scope.type scope = Scope.Identity ∨ Scope.type scope = Scope.Address)
  ∧ 1 < length (Scope.documents scope)
  ∧ ∃ document,
      RepresentativeDocument scope = Some document
      ∧ DocumentLabel (Value.type document) = None.
Proof.
  destruct (decide (Scope.type scope = Scope.Identity
                    ∨ Scope.type scope = Scope.Address)) as [Htype|Htype].
  - destruct (RepresentativeDocument scope) as [document|] eqn:Hdocument.
    + destruct (decide (1 < length (Scope.documents scope))) as [Hlt|Hge].
      * destruct (DocumentLabel (Value.type document)) as [label|]
          eqn:Hlabel.
        -- rewrite (ReadyString_documents _ _ _ scope Htype [lang label]).
           ++ naive_solver.
           ++ rewrite Hdocument, bool_decide_eq_true_2 by done.
              by rewrite Hlabel.
        -- split; [eauto 10|]. intros _.
           unfold ComputeScopeRowReadyString.
           rewrite Hdocument, bool_decide_eq_true_2, Hlabel by done.
           by destruct Htype as [-> | ->].
      * rewrite (ReadyString_documents _ _ _ scope Htype []).
        -- naive_solver.
        -- by rewrite Hdocument, bool_decide_eq_false_2.
    + rewrite (ReadyString_documents _ _ _ scope Htype []).
      * naive_solver.
      * by rewrite Hdocument.
  - rewrite ReadyString_contact
      by (destruct (Scope.type scope); tauto).
    naive_solver.
Qed.

(** X8. The presenter aborts in two cases only: the summary formatter
    aborts, or the scope is an Identity or Address scope with exactly one
    document, of a type that is not a document type of the scope. *)
Theorem ScopeRow_aborts_iff scope :
  ComputeScopeRow lang GetDocumentScheme GetContactScheme scope = None ↔
  ComputeScopeRowReadyString lang GetDocumentScheme GetContactScheme scope
  = None
  ∨ ∃ document,
      Scope.documents scope = [document]
      ∧ (Scope.type scope = Scope.Identity
         ∨ Scope.type scope = Scope.Address)
      ∧ ¬ DocumentTypeOf (Scope.type scope) (Value.type document).
Proof.
  assert (∀ title_key subtitle_key,
            Row lang GetDocumentScheme GetContactScheme scope
              title_key subtitle_key = None ↔
            ComputeScopeRowReadyString lang GetDocumentScheme
              GetContactScheme scope = None) as Hrow.
  { intros ??. unfold Row. by destruct (ComputeScopeRowReadyString _ _ _ _). }
  unfold ComputeScopeRow, Unexpected.
  destruct (Scope.type scope) eqn:Htype;
    destruct (Scope.documents scope) as [|front [|second rest]]
      eqn:Hdocuments;
    try (rewrite Hrow; split; [by left|];
         intros [?|(document & [=] & _)]; done);
    try (rewrite Hrow; split; [by left|];
         intros [?|(document & _ & [[=]|[=]] & _)]; done).
  - destruct (Value.type front) eqn:Hfront; rewrite ?Hrow;
      (split; [first [by left|intros _]|intros [?|Hviolation]]); try done.
    all: try (destruct Hviolation as (document & [= <-] & _ & Hnot);
              destruct Hnot; rewrite Hfront;
              apply DocumentTypeOf_cases; by auto 10).
    all: right; exists front; split_and!; [done|by left|];
      rewrite Hfront, DocumentTypeOf_cases; naive_solver.
  - destruct (Value.type front) eqn:Hfront; rewrite ?Hrow;
      (split; [first [by left|intros _]|intros [?|Hviolation]]); try done.
    all: try (destruct Hviolation as (document & [= <-] & _ & Hnot);
              destruct Hnot; rewrite Hfront;
              apply DocumentTypeOf_cases; by auto 10).
    all: right; exists front; split_and!; [done|by right|];
      rewrite Hfront, DocumentTypeOf_cases; naive_solver.
Qed.

End AbortFacts.

Section CompletenessFacts.

Variable lang : LangKey → string.
Variable GetDocumentScheme : Scope.Type_ → EditDocumentScheme.t.
Variable GetContactScheme : Scope.Type_ → EditContactScheme.t.

(** A scope whose documents belong to it gets a row. *)
Lemma ScopeRow_belonging scope :
  ScopeDocumentsBelong scope →
  is_Some (ComputeScopeRow lang GetDocumentScheme GetContactScheme scope).
Proof.
  intros Hbelong.
  assert (is_Some (ComputeScopeRowReadyString lang GetDocumentScheme
                     GetContactScheme scope)) as [ready Hready].
  { destruct (decide (Scope.type scope = Scope.Identity
                      ∨ Scope.type scope = Scope.Address)) as [Htype|Htype].
    - destruct (label_pushed lang GetDocumentScheme GetContactScheme
                  scope Hbelong) as [label Hlabel].
      rewrite (ReadyString_documents _ _ _ scope Htype label Hlabel). eauto.
    - rewrite ReadyString_contact; [eauto|].
      destruct (Scope.type scope); tauto. }
  unfold ComputeScopeRow, Row. rewrite Hready. simpl.
  unfold ScopeDocumentsBelong in Hbelong.
  destruct (Scope.type scope) eqn:Htype; [| |eauto..];
    destruct (Scope.documents scope) as [|front [|second rest]];
    [eauto| |eauto|eauto| |eauto];
    apply Forall_cons in Hbelong as [Hfront _];
    apply DocumentTypeOf_cases in Hfront
      as [[? [->|[->| ->]]]|[? [->|[->| ->]]]]; simplify_eq; eauto.
Qed.

(** X9. Every scope that the builder returns for a form keeping each
    value under its own type gets a summary and a row: neither the
    formatter nor the presenter aborts on it. *)
Theorem built_scopes_have_rows form scopes :
  FormValuesTyped form →
  ComputeScopes form = Some scopes →
  Forall (λ scope,
            ∃ row,
              ComputeScopeRow lang GetDocumentScheme GetContactScheme scope
              = Some row
              ∧ ComputeScopeRowReadyString lang GetDocumentScheme
                  GetContactScheme scope
                = Some (readySummary row))
    scopes.
Proof.
  intros Htyped Hscopes.
  eapply Forall_impl; [by eapply ComputeScopes_documents_belong|].
  intros scope [row Hrow]%ScopeRow_belonging. exists row. split; [done|].
  revert Hrow. unfold ComputeScopeRow, Unexpected.
  destruct (Scope.type scope);
    try destruct (Scope.documents scope) as [|front [|second rest]];
    try destruct (Value.type front);
    first [done | by intros [? _]%Row_Some].
Qed.

Lemma RowString_filled fields document row :
  is_Some (RowString fields document row) → RowFilled fields document row.
Proof.
  unfold RowString, RowFilled.
  destruct (EditDocumentScheme.valueClass row).
  - destruct (fields !! _) as [value|]; [|by intros [? [=]]].
    destruct (rejected row value) eqn:Hrejected; [by intros [? [=]]|].
    intros _. by exists value.
  - destruct document as [scanned|]; [|by intros [? [=]]].
    destruct (_ !! _) as [value|] eqn:Hvalue; [|by intros [? [=]]].
    destruct (rejected row value) eqn:Hrejected; [by intros [? [=]]|].
    intros _. by exists scanned, value.
Qed.

(** X10. A summary that is not empty is complete: the representative
    document, if any, has the selfie when one is required, every row
    reading the primary fields finds its key with a value that its
    validator accepts, and every row reading the document finds the same
    in the representative document, which then exists. *)
Theorem nonempty_summary_complete scope summary :
  Scope.type scope = Scope.Identity ∨ Scope.type scope = Scope.Address →
  ComputeScopeRowReadyString lang GetDocumentScheme GetContactScheme scope
  = Some summary →
  summary ≠ "" →
  DocumentNotReady scope (RepresentativeDocument scope) = false
  ∧ Forall (RowFilled (Value.data_parsed_fields (Scope.fields scope))
              (RepresentativeDocument scope))
      (EditDocumentScheme.rows (GetDocumentScheme (Scope.type scope))).
Proof.
  intros Htype Hsummary Hnonempty.
  unfold ComputeScopeRowReadyString in Hsummary.
  destruct (match RepresentativeDocument scope with
            | Some document =>
                if bool_decide (1 < length (Scope.documents scope)) then
                  DocumentLabel (Value.type document)
                    ≫= λ label, Some [lang label]
                else Some []
            | None => Some []
            end) as [label|]; simpl in Hsummary.
  2: { by destruct Htype as [Ht|Ht]; rewrite Ht in Hsummary. }
  destruct (DocumentNotReady scope (RepresentativeDocument scope)).
  { destruct Htype as [Ht|Ht]; rewrite Ht in Hsummary; by simplify_eq. }
  split; [done|].
  rewrite RowsLoop_mapM in Hsummary.
  destruct (mapM _ (EditDocumentScheme.rows
                      (GetDocumentScheme (Scope.type scope))))
    as [pushed|] eqn:Hrows; simpl in Hsummary.
  2: { destruct Htype as [Ht|Ht]; rewrite Ht in Hsummary; by simplify_eq. }
  assert (is_Some (mapM (RowString
                           (Value.data_parsed_fields (Scope.fields scope))
                           (RepresentativeDocument scope))
                     (EditDocumentScheme.rows
                        (GetDocumentScheme (Scope.type scope)))))
    as Hall%mapM_is_Some_1 by (rewrite Hrows; eauto).
  eapply Forall_impl; [done|].
  intros row. apply RowString_filled.
Qed.

(** X11. When no document has scans, a scheme with a row that reads the
    document gives the empty summary, whatever the fields hold. *)
Theorem no_scans_empty_summary scope :
  Scope.type scope = Scope.Identity ∨ Scope.type scope = Scope.Address →
  Forall (λ document, Value.scans document = []) (Scope.documents scope) →
  Exists (λ row,
            EditDocumentScheme.valueClass row = EditDocumentScheme.Scans)
    (EditDocumentScheme.rows (GetDocumentScheme (Scope.type scope))) →
  ComputeScopeRowReadyString lang GetDocumentScheme GetContactScheme scope
  = Some "".
Proof.
  intros Htype Hnone%RepresentativeDocument_None Hscans.
  rewrite (ReadyString_documents _ _ _ scope Htype []);
    [|by rewrite Hnone].
  rewrite Hnone. simpl.
  rewrite (proj2 (mapM_None _ _)); [done|].
  eapply Exists_impl; [done|]. intros row Hclass.
  unfold RowString. by rewrite Hclass.
Qed.

(** X12. With at most one document the summary carries no label: when
    it is not cut short, it is the strings of the scheme rows joined with
    ", ". *)
Theorem single_document_no_label scope :
  Scope.type scope = Scope.Identity ∨ Scope.type scope = Scope.Address →
  (length (Scope.documents scope) ≤ 1)%nat →
  ComputeScopeRowReadyString lang GetDocumentScheme GetContactScheme scope
  = Some (if DocumentNotReady scope (RepresentativeDocument scope) then ""
          else
            match mapM (RowString
                          (Value.data_parsed_fields (Scope.fields scope))
                          (RepresentativeDocument scope))
                    (EditDocumentScheme.rows
                       (GetDocumentScheme (Scope.type scope))) with
            | Some pushed => String.concat ", " pushed
            | None => ""
            end).
Proof.
  intros Htype Hlength.
  rewrite (ReadyString_documents _ _ _ scope Htype []); [done|].
  destruct (RepresentativeDocument scope); [|done].
  by rewrite bool_decide_eq_false_2 by lia.
Qed.

(** X13. For an Address scope with exactly one document, the presenter
    returns the title and subtitle of a Bank Statement, a Utility Bill
    or a Rental Agreement according to the document's type, with the
    ready string of the scope; for any other type of the document it
    aborts. *)
Theorem address_single_document_row scope document :
  Scope.type scope = Scope.Address →
  Scope.documents scope = [document] →
  ∃ ready,
    ComputeScopeRowReadyString lang GetDocumentScheme GetContactScheme scope
    = Some ready
    ∧ ComputeScopeRow lang GetDocumentScheme GetContactScheme scope =
      match Value.type document with
      | Value.BankStatement =>
          Some (mkScopeRow (lang lng_passport_address_statement)
                  (lang lng_passport_address_statement_upload) ready)
      | Value.UtilityBill =>
          Some (mkScopeRow (lang lng_passport_address_bill)
                  (lang lng_passport_address_bill_upload) ready)
      | Value.RentalAgreement =>
          Some (mkScopeRow (lang lng_passport_address_agreement)
                  (lang lng_passport_address_agreement_upload) ready)
      | _ => None
      end.
Proof.
  intros Htype Hdocuments.
  assert (is_Some (ComputeScopeRowReadyString lang GetDocumentScheme
                     GetContactScheme scope)) as [ready Hready].
  { rewrite (ReadyString_documents _ _ _ scope (or_intror Htype) []);
      [eauto|].
    destruct (RepresentativeDocument scope); [|done].
    by rewrite Hdocuments. }
  exists ready. split; [done|].
  unfold ComputeScopeRow, Row, Unexpected.
  rewrite Htype, Hdocuments, Hready.
  by destruct (Value.type document).
Qed.

End CompletenessFacts.

(** ** The further properties on the sample inputs *)

Lemma ComputeScopes_returns_iff_resolves_witness :
  is_Some (ComputeScopes Samples.form) ↔ FormResolves Samples.form.
Proof.
  apply (ComputeScopes_returns_iff_resolves Samples.form).
  intros [] value; vm_compute; by intros [= <-].
Defined.

Lemma built_scopes_anchored_witness :
  ∃ scopes,
    ComputeScopes Samples.form = Some scopes
    ∧ NoDup (Scope.type <$> scopes)
    ∧ Forall (λ scope,
                (FieldsTypeForScopeType (Scope.type scope)
                   ≫= λ fieldsType, values Samples.form !! fieldsType)
                = Some (Scope.fields scope)
                ∧ Scope.selfieRequired scope
                  = (bool_decide (Scope.type scope = Scope.Identity)
                     && identitySelfieRequired Samples.form))
        scopes.
Proof.
  eexists. split; [vm_compute; reflexivity|].
  apply (built_scopes_anchored Samples.form). vm_compute. reflexivity.
Defined.

Lemma built_scopes_documents_witness :
  ∃ scopes,
    ComputeScopes Samples.form = Some scopes
    ∧ Forall (λ scope,
                Value.type <$> Scope.documents scope
                = first_occurrences
                    (filter (DocumentTypeOf (Scope.type scope))
                       (request Samples.form))
                ∧ NoDup (Value.type <$> Scope.documents scope)
                ∧ Forall (λ document,
                            values Samples.form !! Value.type document
                            = Some document)
                    (Scope.documents scope)
                ∧ (Scope.type scope = Scope.Phone
                   ∨ Scope.type scope = Scope.Email →
                   Scope.documents scope = []))
        scopes.
Proof.
  eexists. split; [vm_compute; reflexivity|].
  apply (built_scopes_documents Samples.form).
  - intros [] value; vm_compute; by intros [= <-].
  - vm_compute. reflexivity.
Defined.

Lemma duplicate_fields_request_silent_witness :
  ComputeScopes_logged MoreSamples.repeatedPhoneForm =
  ComputeScopes_logged
    (mkForm (values MoreSamples.repeatedPhoneForm)
       ([] ++ Value.Phone :: [Value.PersonalDetails; Value.Passport]
           ++ [Value.Passport])
       (identitySelfieRequired MoreSamples.repeatedPhoneForm)).
Proof.
  apply (duplicate_fields_request_silent MoreSamples.repeatedPhoneForm
           [] [Value.PersonalDetails; Value.Passport] [Value.Passport]
           Value.Phone Scope.Phone).
  - intros [] value; vm_compute; by intros [= <-].
  - reflexivity.
  - reflexivity.
  - reflexivity.
Defined.

Lemma logged_repeated_documents_witness :
  ∃ scopes,
    ComputeScopes_logged Samples.form = Some (scopes, [Value.Passport])
    ∧ [Value.Passport]
      = later_occurrences_from []
          (filter IsDocumentType (request Samples.form)).
Proof.
  eexists. split; [vm_compute; reflexivity|].
  eapply (logged_repeated_documents Samples.form).
  - intros [] value; vm_compute; by intros [= <-].
  - vm_compute. reflexivity.
Defined.

Lemma ReadyString_aborts_iff_witness :
  ComputeScopeRowReadyString Samples.lang Samples.GetDocumentScheme
    Samples.GetContactScheme MoreSamples.unlabelledScope
  = None.
Proof.
  apply (ReadyString_aborts_iff Samples.lang Samples.GetDocumentScheme
           Samples.GetContactScheme MoreSamples.unlabelledScope).
  split_and!.
  - by left.
  - simpl. lia.
  - exists MoreSamples.scannedPhone. split; reflexivity.
Defined.

Lemma ScopeRow_aborts_iff_witness :
  ComputeScopeRow Samples.lang Samples.GetDocumentScheme
    Samples.GetContactScheme MoreSamples.strayScope
  = None.
Proof.
  apply (ScopeRow_aborts_iff Samples.lang Samples.GetDocumentScheme
           Samples.GetContactScheme MoreSamples.strayScope).
  right. exists Samples.utilityBill. split_and!.
  - reflexivity.
  - by left.
  - intros [Hscope _]. vm_compute in Hscope. congruence.
Defined.

Lemma built_scopes_have_rows_witness :
  ∃ scopes,
    ComputeScopes Samples.form = Some scopes
    ∧ Forall (λ scope,
                ∃ row,
                  ComputeScopeRow Samples.lang Samples.GetDocumentScheme
                    Samples.GetContactScheme scope
                  = Some row
                  ∧ ComputeScopeRowReadyString Samples.lang
                      Samples.GetDocumentScheme Samples.GetContactScheme
                      scope
                    = Some (readySummary row))
        scopes.
Proof.
  eexists. split; [vm_compute; reflexivity|].
  apply (built_scopes_have_rows Samples.lang Samples.GetDocumentScheme
           Samples.GetContactScheme Samples.form).
  - intros [] value; vm_compute; by intros [= <-].
  - vm_compute. reflexivity.
Defined.

Lemma nonempty_summary_complete_witness :
  DocumentNotReady (Samples.identityScope false)
    (RepresentativeDocument (Samples.identityScope false)) = false
  ∧ Forall (RowFilled
              (Value.data_parsed_fields
                 (Scope.fields (Samples.identityScope false)))
              (RepresentativeDocument (Samples.identityScope false)))
      (EditDocumentScheme.rows
         (Samples.GetDocumentScheme
            (Scope.type (Samples.identityScope false)))).
Proof.
  apply (nonempty_summary_complete Samples.lang Samples.GetDocumentScheme
           Samples.GetContactScheme (Samples.identityScope false)
           "Ada, Lovelace, Netherlands, AB123").
  - by left.
  - vm_compute. reflexivity.
  - discriminate.
Defined.

Lemma no_scans_empty_summary_witness :
  ComputeScopeRowReadyString Samples.lang Samples.GetDocumentScheme
    Samples.GetContactScheme MoreSamples.unscannedScope
  = Some "".
Proof.
  apply (no_scans_empty_summary Samples.lang Samples.GetDocumentScheme
           Samples.GetContactScheme MoreSamples.unscannedScope).
  - by left.
  - repeat constructor.
  - simpl. do 3 apply Exists_cons_tl. by apply Exists_cons_hd.
Defined.

Lemma single_document_no_label_witness :
  ComputeScopeRowReadyString Samples.lang Samples.GetDocumentScheme
    Samples.GetContactScheme (Samples.identityScope false)
  = Some (String.concat ", " ["Ada"; "Lovelace"; "Netherlands"; "AB123"]).
Proof.
  rewrite (single_document_no_label Samples.lang Samples.GetDocumentScheme
             Samples.GetContactScheme (Samples.identityScope false)
             (or_introl eq_refl)).
  - vm_compute. reflexivity.
  - simpl. lia.
Defined.

Lemma address_single_document_row_witness :
  ComputeScopeRow Samples.lang Samples.GetDocumentScheme
    Samples.GetContactScheme MoreSamples.billScope
  = Some (mkScopeRow "Utility Bill" "Upload a scan of your utility bill"
            "Main St 1, Delft, Netherlands").
Proof.
  destruct (address_single_document_row Samples.lang
              Samples.GetDocumentScheme Samples.GetContactScheme
              MoreSamples.billScope Samples.utilityBill eq_refl eq_refl)
    as (ready & Hready & ->).
  vm_compute in Hready. injection Hready as <-. reflexivity.
Defined.
